(** * ndcube: sequence slice resolution and lazy lookup-table coordinates

    A shallow embedding of [ndcube/cube_utils.py] and
    [ndcube/extra_coords/lookup_table_coord.py].

    Python integers are [Z]; Python exceptions are the constructors of
    [exn] and every fallible function returns a [result].  Code that mutates
    shared objects (the lists and frames of a [LookupTableCoord]) runs in a
    small state monad over an explicit object store. *)

From Stdlib Require Import ZArith List String Lia Bool Sorted.
From stdpp Require Import base option list gmap strings.

Local Open Scope string_scope.
Local Open Scope list_scope.
Local Open Scope Z_scope.

(** ** Python values shared by both modules *)

Module Py.

(** The exceptions the two modules can raise. *)
Inductive exn : Type :=
| TypeError
| ValueError
| IndexError
| KeyError
| AssertionError
| NameError (name : string)
| AttributeError (attr : string)
| UnboundLocalError (name : string)
| UnitsError (msg : string)
| SystemError.

Inductive result (A : Type) : Type :=
| Ok (a : A)
| Raise (e : exn).
Arguments Ok {A} a.
Arguments Raise {A} e.

#[export] Instance result_ret : MRet result := fun A a => Ok a.
#[export] Instance result_bind : MBind result := fun A B f m =>
  match m with
  | Ok a => f a
  | Raise e => Raise e
  end.
#[export] Instance result_fmap : FMap result := fun A B f m =>
  match m with
  | Ok a => Ok (f a)
  | Raise e => Raise e
  end.

Definition is_ok {A} (r : result A) : bool :=
  match r with Ok _ => true | Raise _ => false end.

(** [slice(start, stop, step)]; an omitted field is [None]. *)
Record slice : Type := mkSlice {
  start : option Z;
  stop : option Z;
  step : option Z
}.

(** [slice(None)] *)
Definition slice_None : slice := mkSlice None None None.

(** One element of an index tuple: an int, a slice, or any other object. *)
Inductive elem : Type :=
| EInt (i : Z)
| ESlice (s : slice)
| EOther (repr : string).

(** An index expression: a bare element or a tuple of elements. *)
Inductive item : Type :=
| Elem (e : elem)
| Tuple (t : list elem).

(** [len(range(lo, hi, step))] for a non-zero step. *)
Definition range_len (lo hi step : Z) : Z :=
  if 0 <? step then
    if lo <? hi then (hi - lo - 1) / step + 1 else 0
  else if step <? 0 then
    if hi <? lo then (lo - hi - 1) / (- step) + 1 else 0
  else 0.

(** [list(range(lo, hi, step))] for a non-zero step. *)
Definition range3 (lo hi step : Z) : list Z :=
  map (fun k => lo + Z.of_nat k * step)
      (seq 0 (Z.to_nat (range_len lo hi step))).

(** [range(a, b, c)] applied to objects that are ints or [None]: the
    arguments are converted to integers left to right (a [None] is a
    [TypeError]), then a zero step is a [ValueError]. *)
Definition py_range3 (a b c : option Z) : result (list Z) :=
  match a, b, c with
  | Some a, Some b, Some c =>
      if c =? 0 then Raise ValueError else Ok (range3 a b c)
  | _, _, _ => Raise TypeError
  end.

(** [range(a, b)] *)
Definition py_range2 (a b : option Z) : result (list Z) :=
  match a, b with
  | Some a, Some b => Ok (range3 a b 1)
  | _, _ => Raise TypeError
  end.

(** [s.indices(len)]: the (start, stop, step) a slice denotes on a sequence
    of length [len]. *)
Definition slice_indices (s : slice) (len : Z) : result (Z * Z * Z) :=
  let st := default 1 (step s) in
  if st =? 0 then Raise ValueError
  else
    let lower := if st <? 0 then -1 else 0 in
    let upper := if st <? 0 then len - 1 else len in
    let clip (v : Z) := if v <? 0 then Z.max (v + len) lower
                        else Z.min v upper in
    let b := match start s with
             | None => if st <? 0 then upper else lower
             | Some v => clip v
             end in
    let e := match stop s with
             | None => if st <? 0 then lower else upper
             | Some v => clip v
             end in
    Ok (b, e, st).

(** [seq[i]] for a list or tuple, with Python's negative indices. *)
Definition getitem {A} (l : list A) (i : Z) : result A :=
  let n := Z.of_nat (length l) in
  let j := if i <? 0 then i + n else i in
  if (j <? 0) || (n <=? j) then Raise IndexError
  else match l !! Z.to_nat j with
       | Some x => Ok x
       | None => Raise IndexError
       end.

(** [seq[1:]] *)
Definition tail_from_1 {A} (l : list A) : list A := drop 1 l.

(** Looking a name up in a scope; an unbound name is a [NameError]. *)
Fixpoint load_name {A} (scope : list (string * A)) (name : string) : result A :=
  match scope with
  | [] => Raise (NameError name)
  | (n, v) :: rest => if String.eqb n name then Ok v else load_name rest name
  end.

End Py.

(** ** ndcube/cube_utils.py *)

Module CubeUtils.
Import Py.

(** [SequenceIndex = namedtuple("SequenceIndex",
                                "sequence_index common_axis_index")] *)
Module SequenceIndex.
Record t : Type := mk {
  sequence_index : Z;
  common_axis_index : Z
}.
End SequenceIndex.

(** [SequenceSlice = namedtuple("SequenceSlice", "sequence_index cube_item")] *)
Module SequenceSlice.
Record t : Type := mk {
  sequence_index : Z;
  cube_item : item
}.

(** Attribute access by name on the named tuple: only the two declared
    fields exist. *)
Definition getattr (s : t) (name : string) : result item :=
  if String.eqb name "sequence_index" then Ok (Elem (EInt (sequence_index s)))
  else if String.eqb name "cube_item" then Ok (cube_item s)
  else Raise (AttributeError name).
End SequenceSlice.

(** *** Axis priority *)

(** [l.index(t)]: the first position holding [t]; a [ValueError] when
    [t] is absent. *)
Fixpoint list_index (t : string) (l : list string) : result Z :=
  match l with
  | [] => Raise ValueError
  | x :: rest =>
      if String.eqb t x then Ok 0
      else i ← list_index t rest; Ok (i + 1)
  end.

(** The sort key [select_order] gives the CTYPE [t]. *)
Definition order_key (axtypes : list string) (t : string)
  : result (Z * string) :=
  if String.eqb t "TIME" || String.eqb t "UTC" then Ok (0, t)
  else if String.eqb t "WAVE" then Ok (1, t)
  else if String.eqb t "HPLT-TAN" then Ok (2, t)
  else i ← list_index t axtypes; Ok (i + 3, t).

(** [a < b] on [(int, str)] tuples: lexicographic; strings compare
    character by character. *)
Definition key_lt (a b : Z * string) : bool :=
  (a.1 <? b.1) || ((a.1 =? b.1) && String.ltb a.2 b.2).

(** Inserting [x] behind every element that is not greater than it. *)
Fixpoint insert_key (x : Z * string) (l : list (Z * string))
  : list (Z * string) :=
  match l with
  | [] => [x]
  | y :: rest => if key_lt x y then x :: y :: rest else y :: insert_key x rest
  end.

(** [order.sort()]: the stable ascending sort. *)
Definition sort_keys (l : list (Z * string)) : list (Z * string) :=
  foldl (fun sorted x => insert_key x sorted) [] l.

Definition select_order (axtypes : list string) : result (list Z) :=
  order ← mapM (order_key axtypes) axtypes;
  let order := sort_keys order in
  mapM (fun p : Z * string => list_index p.2 axtypes) order.

(** The position [l.index(t)] as a total function. *)
Definition position (l : list string) (t : string) : Z :=
  match list_index t l with Ok i => i | Raise _ => 0 end.

(** The first component of the sort key of [t]. *)
Definition rank (axtypes : list string) (t : string) : Z :=
  match order_key axtypes t with Ok k => k.1 | Raise _ => 0 end.

(** *** Sequence-native indexing *)

Definition get_sequence_slices_from_int_item (int_item : Z) (cube_slice : item)
  : list SequenceSlice.t :=
  [SequenceSlice.mk int_item cube_slice].

(** The [try] enumerates [range(start, stop, step)]; only a [TypeError] is
    handled, by enumerating [range(start, stop)] instead. *)
Definition get_sequence_slices_from_slice_item (slice_item : slice)
    (cube_slice : item) : result (list SequenceSlice.t) :=
  let mk_all := map (fun i => SequenceSlice.mk i cube_slice) in
  match py_range3 (start slice_item) (stop slice_item) (step slice_item) with
  | Ok r => Ok (mk_all r)
  | Raise TypeError =>
      r ← py_range2 (start slice_item) (stop slice_item); Ok (mk_all r)
  | Raise e => Raise e
  end.

Definition get_sequence_slices_from_tuple_item (tuple_item : list elem)
  : result (list SequenceSlice.t) :=
  cube_slice ←
    (if (length (tail_from_1 tuple_item) =? 1)%nat
     then Elem <$> getitem tuple_item 1
     else Ok (Tuple (tail_from_1 tuple_item)));
  t0 ← getitem tuple_item 0;
  match t0 with
  | EInt i => Ok (get_sequence_slices_from_int_item i cube_slice)
  | ESlice s => get_sequence_slices_from_slice_item s cube_slice
  | EOther _ => Raise TypeError
  end.

Definition convert_item_to_sequence_slices (it : item)
  : result (list SequenceSlice.t) :=
  let cube_slice_default := Elem (ESlice slice_None) in
  match it with
  | Elem (EInt i) => Ok (get_sequence_slices_from_int_item i cube_slice_default)
  | Elem (ESlice s) => get_sequence_slices_from_slice_item s cube_slice_default
  | Tuple t => get_sequence_slices_from_tuple_item t
  | Elem (EOther _) => Raise TypeError
  end.

(** *** Cumulative extent arithmetic *)

Fixpoint cumsum_from (acc : Z) (l : list Z) : list Z :=
  match l with
  | [] => []
  | x :: r => (acc + x) :: cumsum_from (acc + x) r
  end.

(** [np.cumsum] of a one-dimensional integer array.  The totals are
    lengths of array axes, far below the range of numpy's 64-bit integers,
    so the sums are taken in [Z]. *)
Definition np_cumsum (l : list Z) : list Z := cumsum_from 0 l.

Fixpoint where_le_from (k : Z) (a : list Z) (x : Z) : list Z :=
  match a with
  | [] => []
  | y :: r =>
      if y <=? x then k :: where_le_from (k + 1) r x
      else where_le_from (k + 1) r x
  end.

(** [np.where(a <= x)[0]]: the positions holding a value at most [x],
    in increasing order. *)
Definition np_where_le (a : list Z) (x : Z) : list Z := where_le_from 0 a x.

Definition _convert_cube_like_index_to_sequence_index
    (cube_like_index : Z) (cumul_cube_lengths : list Z)
  : result SequenceIndex.t :=
  first ← getitem cumul_cube_lengths 0;
  if cube_like_index <? first then
    Ok (SequenceIndex.mk 0 cube_like_index)
  else
    sequence_index ←
      getitem (np_where_le cumul_cube_lengths cube_like_index) (-1);
    last ← getitem cumul_cube_lengths (-1);
    cube_index ←
      (if last - 1 <? cube_like_index then
         if (length cumul_cube_lengths =? 1)%nat then Ok (last - 1)
         else
           before_last ← getitem cumul_cube_lengths (-2);
           Ok (last - before_last - 1)
       else
         at_index ← getitem cumul_cube_lengths sequence_index;
         Ok (cube_like_index - at_index));
    let sequence_index :=
      if sequence_index <? Z.of_nat (length cumul_cube_lengths) - 1
      then sequence_index + 1 else sequence_index in
    Ok (SequenceIndex.mk sequence_index cube_index).

(** [np.arange(n)[s]] *)
Definition np_arange_slice (n : Z) (s : slice) : result (list Z) :=
  '(b, e, st) ← slice_indices s (Z.max 0 n);
  Ok (range3 b e st).

Definition _convert_cube_like_slice_to_sequence_indices
    (cube_like_slice : slice) (cumul_cube_lengths : list Z)
  : result (list SequenceIndex.t) :=
  last ← getitem cumul_cube_lengths (-1);
  cube_like_indices ← np_arange_slice last cube_like_slice;
  mapM (fun cube_like_index =>
          _convert_cube_like_index_to_sequence_index
            cube_like_index cumul_cube_lengths)
       cube_like_indices.

(** [cube_item_list[common_axis] = v]: list assignment at a non-negative
    position raises when the position is out of range. *)
Definition list_setitem {A} (l : list A) (i : nat) (v : A) : result (list A) :=
  if (i <? length l)%nat then Ok (<[i := v]> l) else Raise IndexError.

(** The [while len(cube_item_list) < common_axis: append(slice(None))] loop *)
Definition pad_to (common_axis : nat) (l : list elem) : list elem :=
  l ++ replicate (common_axis - length l) (ESlice slice_None).

(** [cube_like_item] is [None] or a tuple.  With [None] and a non-zero
    common axis, [list(None)] raises a [TypeError] whose handler reads
    [err.message], an attribute Python 3 exceptions do not have. *)
Definition _convert_sequence_index_to_sequence_slice
    (sequence_index : SequenceIndex.t) (common_axis : nat)
    (cube_like_item : option (list elem)) : result SequenceSlice.t :=
  let falsy := match cube_like_item with
               | None | Some [] => true
               | Some (_ :: _) => false
               end in
  if falsy && (common_axis =? 0)%nat then
    Ok (SequenceSlice.mk (SequenceIndex.sequence_index sequence_index)
          (Elem (EInt (SequenceIndex.common_axis_index sequence_index))))
  else
    cube_item_list ←
      match cube_like_item with
      | Some t => Ok t
      | None => Raise (AttributeError "message")
      end;
    let cube_item_list := pad_to common_axis cube_item_list in
    cube_item_list ←
      list_setitem cube_item_list common_axis
        (EInt (SequenceIndex.common_axis_index sequence_index));
    Ok (SequenceSlice.mk (SequenceIndex.sequence_index sequence_index)
          (Tuple cube_item_list)).

(** *** Notions the properties are stated with *)

(** The invariant of cumulative extents: running totals never decrease. *)
Fixpoint non_decreasing (l : list Z) : bool :=
  match l with
  | x :: ((y :: _) as rest) => (x <=? y) && non_decreasing rest
  | _ => true
  end.

(** [extents[k]], read as [0] outside the sequence. *)
Definition extent_at (extents : list Z) (k : Z) : Z :=
  default 0 (extents !! Z.to_nat k).

(** The virtual index a [SequenceIndex] stands for: the offset itself in
    the first cube, otherwise the offset past the extent of the cube
    before. *)
Definition virtual_index_of (extents : list Z) (si : SequenceIndex.t)
  : result Z :=
  let s := SequenceIndex.sequence_index si in
  let c := SequenceIndex.common_axis_index si in
  if s =? 0 then Ok c
  else
    before ← getitem extents (s - 1);
    Ok (before + c).

(** *** Resolution and application against a cube sequence

    The cube and sequence classes live outside these two files: a cube is
    any type with a shape and an indexing operation, and the sequence's own
    [__getitem__] is a parameter. *)

Section Sequence.

Context {Cube : Type}.
Variable shape : Cube -> list Z.
Variable cube_getitem : Cube -> item -> result Cube.

Record NDCubeSequence : Type := mkSeq {
  data : list Cube;
  _common_axis : nat
}.

Variable sequence_getitem : NDCubeSequence -> Z -> result Cube.

(** What [slice_sequence] returns: a bare cube, or a sequence. *)
Inductive sliced : Type :=
| BareCube (c : Cube)
| Sequence (s : NDCubeSequence).

(** The single-element branch reads the attribute [cube_slice]; the
    multi-element branch reads [cube_item]. *)
Definition slice_sequence (cubesequence : NDCubeSequence)
    (sequence_slices : list SequenceSlice.t) : result sliced :=
  let result := cubesequence in
  if (length sequence_slices =? 1)%nat then
    s0 ← getitem sequence_slices 0;
    cube ← getitem (data result) (SequenceSlice.sequence_index s0);
    it ← SequenceSlice.getattr s0 "cube_slice";
    BareCube <$> cube_getitem cube it
  else
    new_data ← mapM (fun sequence_slice =>
                   cube ← getitem (data result)
                            (SequenceSlice.sequence_index sequence_slice);
                   it ← SequenceSlice.getattr sequence_slice "cube_item";
                   cube_getitem cube it)
                sequence_slices;
    Ok (Sequence (mkSeq new_data (_common_axis result))).

(** In the tuple case the body reads the name [item], which neither the
    function (parameters [cubesequence] and [cube_like_item]) nor the
    module binds, and calls [_convert_sequence_index_to_sequence_slice]
    with one argument although [common_axis] has no default. *)
Definition convert_cube_like_item_to_sequence_slices
    (cubesequence : NDCubeSequence) (cube_like_item : item)
  : result (list SequenceSlice.t) :=
  let common_axis := _common_axis cubesequence in
  let scope := [("cube_like_item", cube_like_item)] in
  lengths ← mapM (fun c => getitem (shape c) (Z.of_nat common_axis))
                 (data cubesequence);
  let cumul_cube_lengths := np_cumsum lengths in
  match cube_like_item with
  | Elem (EInt i) =>
      if negb (common_axis =? 0)%nat then Raise ValueError
      else
        sequence_index ←
          _convert_cube_like_index_to_sequence_index i cumul_cube_lengths;
        Ok (get_sequence_slices_from_int_item
              (SequenceIndex.sequence_index sequence_index)
              (Elem (EInt (SequenceIndex.common_axis_index sequence_index))))
  | Elem (ESlice s) =>
      if negb (common_axis =? 0)%nat then Raise ValueError
      else
        sequence_indices ←
          _convert_cube_like_slice_to_sequence_indices s cumul_cube_lengths;
        mapM (fun sequence_index =>
                _convert_sequence_index_to_sequence_slice
                  sequence_index common_axis None)
             sequence_indices
  | Tuple t =>
      if (length t <? common_axis)%nat then
        _ ← sequence_getitem cubesequence 0;
        Raise ValueError
      else
        at_common_axis ← getitem t (Z.of_nat common_axis);
        sequence_indices ←
          match at_common_axis with
          | EInt _ =>
              it ← load_name scope "item";
              match it with
              | Tuple t' =>
                  e ← getitem t' (Z.of_nat common_axis);
                  match e with
                  | EInt i =>
                      si ← _convert_cube_like_index_to_sequence_index
                             i cumul_cube_lengths;
                      Ok [si]
                  | _ => Raise TypeError
                  end
              | Elem _ => Raise TypeError
              end
          | ESlice _ =>
              it ← load_name scope "item";
              match it with
              | Elem (ESlice s) =>
                  _convert_cube_like_slice_to_sequence_indices
                    s cumul_cube_lengths
              | _ => Raise TypeError
              end
          | EOther _ => Raise ValueError
          end;
        mapM (fun _ : SequenceIndex.t => Raise TypeError) sequence_indices
  | Elem (EOther _) => Raise (UnboundLocalError "sequence_slices")
  end.

Definition index_sequence_as_cube (cubesequence : NDCubeSequence) (it : item)
  : result sliced :=
  sequence_slices ← convert_cube_like_item_to_sequence_slices cubesequence it;
  slice_sequence cubesequence sequence_slices.

End Sequence.

End CubeUtils.

(** ** ndcube/extra_coords/lookup_table_coord.py *)

Module LookupTable.
Import Py.

(** [type(lt)] of a lookup table: the three classes the constructor
    dispatches on, or any other class. *)
Inductive table_type : Type :=
| Quantity
| Time
| SkyCoord
| OtherType (name : string).

Definition table_type_eqb (a b : table_type) : bool :=
  match a, b with
  | Quantity, Quantity | Time, Time | SkyCoord, SkyCoord => true
  | OtherType n, OtherType m => String.eqb n m
  | _, _ => false
  end.

(** The array and unit operations the module consumes from astropy. *)
Class Tables (A U : Type) : Type := {
  type_of : A -> table_type;
  array_shape : A -> list Z;
  unit_of : A -> U;
  array_getitem : A -> item -> result A;
  is_equivalent : U -> U -> bool;
  u_m : U;
  u_pix : U;
  u_s : U;
  (* (time[1:] - time[0]).to(u.s).insert(0, 0) *)
  time_deltas : A -> result A;
  (* tuple(getattr(sc.data, comp) for comp in sc.data.components) *)
  sky_components : A -> list A
}.

(** What the module relies on without checking: a unit is equivalent to
    itself, and indexing a quantity keeps its unit. *)
Class TablesLaws (A U : Type) `{Tables A U} : Prop := {
  is_equivalent_refl : forall u : U, is_equivalent u u = true;
  array_getitem_unit : forall (a a' : A) (it : item),
    array_getitem a it = Ok a' -> unit_of a' = unit_of a
}.

(** A realized transform, as far as this module looks into it: tabular
    models, [m1 & m2], [m1 | m2] and [Mapping]. *)
Inductive Model (A : Type) : Type :=
| Tabular (ndim : nat) (lookup_table : A)
| Join (m1 m2 : Model A)
| Compose (m1 m2 : Model A)
| Mapping (mapping : list nat).
Arguments Tabular {A} ndim lookup_table.
Arguments Join {A} m1 m2.
Arguments Compose {A} m1 m2.
Arguments Mapping {A} mapping.

(** [model.n_inputs]: [&] adds the inputs of both sides, [|] takes the
    inputs of the left side, a [Mapping] has [max(mapping) + 1] inputs. *)
Fixpoint n_inputs {A} (m : Model A) : nat :=
  match m with
  | Tabular ndim _ => ndim
  | Join m1 m2 => (n_inputs m1 + n_inputs m2)%nat
  | Compose m1 _ => n_inputs m1
  | Mapping mapping => S (foldr Nat.max 0%nat mapping)
  end.

(** The raw table a [DelayedLookupTable] holds: one array or a tuple. *)
Inductive lookup_table_value (A : Type) : Type :=
| Single (a : A)
| Components (l : list A).
Arguments Single {A} a.
Arguments Components {A} l.

(** The construction functions the three builders close over:
    [partial(self._model_from_quantity, mesh=mesh)],
    [_generate_time_lookup] and [_generate_skycoord_lookup]. *)
Inductive model_function : Type :=
| ModelFromQuantity (mesh : bool)
| GenerateTimeLookup
| GenerateSkycoordLookup (mesh : bool).

Record DelayedLookupTable (A : Type) : Type := mkDelayed {
  lookup_table : lookup_table_value A;
  model_function_of : model_function;
  mesh : bool
}.
Arguments mkDelayed {A} lookup_table model_function_of mesh.
Arguments lookup_table {A} d.
Arguments model_function_of {A} d.
Arguments mesh {A} d.

(** The frame classes of gwcs this module instantiates. *)
Inductive frame_class : Type :=
| CoordinateFrame
| TemporalFrame
| CelestialFrame.

Record Frame (U : Type) : Type := mkFrame {
  frame_class_of : frame_class;
  naxes : nat;
  axes_type : list string;
  _axes_order : list Z;
  unit : list U;
  axes_names : option (list string);
  name : option string;
  axis_physical_types : option (list string)
}.
Arguments mkFrame {U} frame_class_of naxes axes_type _axes_order unit
  axes_names name axis_physical_types.
Arguments frame_class_of {U} f.
Arguments naxes {U} f.
Arguments axes_type {U} f.
Arguments _axes_order {U} f.
Arguments unit {U} f.
Arguments axes_names {U} f.
Arguments name {U} f.
Arguments axis_physical_types {U} f.

(** [f._axes_order = order] *)
Definition set_axes_order {U} (f : Frame U) (order : list Z) : Frame U :=
  mkFrame (frame_class_of f) (naxes f) (axes_type f) order (unit f)
    (axes_names f) (name f) (axis_physical_types f).

(** [tuple(range(lo, hi))] *)
Definition axis_range (lo hi : nat) : list Z :=
  map Z.of_nat (seq lo (hi - lo)).

(** References into the object store. *)
Definition ref : Type := positive.

(** The attributes of a [LookupTableCoord] instance: both are references
    to list objects. *)
Record LookupTableCoord : Type := mkCoord {
  delayed_models : ref;
  frames : ref
}.

(** The right operand of [&]: an instance, or any other object. *)
Inductive operand : Type :=
| Instance (r : ref)
| Foreign (repr : string).

(** *** The object store

    Lists and frames are mutable objects reached through references, so
    two instances may hold the same list and two lists the same frame.
    [calls] records every invocation of a construction function, with the
    table it was applied to, in program order. *)
Record store (A U : Type) : Type := mkStore {
  model_lists : gmap ref (list (DelayedLookupTable A));
  frame_lists : gmap ref (list ref);
  frame_objects : gmap ref (Frame U);
  instances : gmap ref LookupTableCoord;
  calls : list (model_function * lookup_table_value A)
}.
Arguments mkStore {A U} model_lists frame_lists frame_objects instances calls.
Arguments model_lists {A U} s.
Arguments frame_lists {A U} s.
Arguments frame_objects {A U} s.
Arguments instances {A U} s.
Arguments calls {A U} s.

Definition empty_store {A U} : store A U := mkStore ∅ ∅ ∅ ∅ [].

(** Computations that read and update the store and may raise; a raised
    exception keeps the updates made before it. *)
Definition M (A U X : Type) : Type := store A U -> result X * store A U.

#[export] Instance M_ret {A U} : MRet (M A U) := fun X x s => (Ok x, s).
#[export] Instance M_bind {A U} : MBind (M A U) := fun X Y f m s =>
  match m s with
  | (Ok x, s') => f x s'
  | (Raise e, s') => (Raise e, s')
  end.

Definition raise {A U X} (e : exn) : M A U X := fun s => (Raise e, s).

Definition lift {A U X} (r : result X) : M A U X := fun s => (r, s).

(** Reading through a reference that names no object cannot happen in
    Python; the model reports it as a [SystemError]. *)
Definition deref {A U X} (heap : store A U -> gmap ref X) (r : ref)
  : M A U X :=
  fun s => match heap s !! r with
           | Some x => (Ok x, s)
           | None => (Raise SystemError, s)
           end.

Definition new_model_list {A U} (l : list (DelayedLookupTable A))
  : M A U ref :=
  fun s => let r := fresh (dom (model_lists s)) in
           (Ok r, mkStore (<[r := l]> (model_lists s)) (frame_lists s)
                    (frame_objects s) (instances s) (calls s)).

Definition set_model_list {A U} (r : ref) (l : list (DelayedLookupTable A))
  : M A U () :=
  fun s => (Ok (), mkStore (<[r := l]> (model_lists s)) (frame_lists s)
                     (frame_objects s) (instances s) (calls s)).

Definition new_frame_list {A U} (l : list ref) : M A U ref :=
  fun s => let r := fresh (dom (frame_lists s)) in
           (Ok r, mkStore (model_lists s) (<[r := l]> (frame_lists s))
                    (frame_objects s) (instances s) (calls s)).

Definition set_frame_list {A U} (r : ref) (l : list ref) : M A U () :=
  fun s => (Ok (), mkStore (model_lists s) (<[r := l]> (frame_lists s))
                     (frame_objects s) (instances s) (calls s)).

Definition new_frame {A U} (f : Frame U) : M A U ref :=
  fun s => let r := fresh (dom (frame_objects s)) in
           (Ok r, mkStore (model_lists s) (frame_lists s)
                    (<[r := f]> (frame_objects s)) (instances s) (calls s)).

Definition set_frame {A U} (r : ref) (f : Frame U) : M A U () :=
  fun s => (Ok (), mkStore (model_lists s) (frame_lists s)
                     (<[r := f]> (frame_objects s)) (instances s) (calls s)).

Definition new_instance {A U} (c : LookupTableCoord) : M A U ref :=
  fun s => let r := fresh (dom (instances s)) in
           (Ok r, mkStore (model_lists s) (frame_lists s) (frame_objects s)
                    (<[r := c]> (instances s)) (calls s)).

Definition set_instance {A U} (r : ref) (c : LookupTableCoord) : M A U () :=
  fun s => (Ok (), mkStore (model_lists s) (frame_lists s) (frame_objects s)
                     (<[r := c]> (instances s)) (calls s)).

Definition record_call {A U} (f : model_function) (t : lookup_table_value A)
  : M A U () :=
  fun s => (Ok (), mkStore (model_lists s) (frame_lists s) (frame_objects s)
                     (instances s) (calls s ++ [(f, t)])).

(** *** Building models and frames *)

Section Coord.

Context {A U : Type} `{Tables A U}.

(** [u.Quantity(lookup_tables).unit] and astropy's
    [sanitize_slices(item, ndim)]: library calls, left as parameters. *)
Variable quantity_unit : list A -> result U.
Variable sanitize_slices : item -> nat -> result (list elem).

Definition is_quantity (x : A) : bool := table_type_eqb (type_of x) Quantity.

Definition generate_tabular (lookup_table : A) : result (Model A) :=
  if negb (is_quantity lookup_table) then Raise TypeError
  else
    let ndim := length (array_shape lookup_table) in
    Ok (Tabular ndim lookup_table).

(** [for lt in lookup_tables[1:]: model = model & cls.generate_tabular(lt)] *)
Fixpoint join_tabular (model : Model A) (rest : list A) : result (Model A) :=
  match rest with
  | [] => Ok model
  | lt :: rest' =>
      t ← generate_tabular lt;
      join_tabular (Join model t) rest'
  end.

Definition _generate_compound_model (lookup_tables : list A) (mesh : bool)
  : result (Model A) :=
  lt0 ← getitem lookup_tables 0;
  model ← generate_tabular lt0;
  model ← join_tabular model (tail_from_1 lookup_tables);
  if mesh then Ok model
  else
    let mapping := concat (replicate (length lookup_tables)
                             (seq 0 (length (array_shape lt0)))) in
    Ok (Compose (Mapping mapping) model).

Definition _model_from_quantity (lookup_tables : list A) (mesh : bool)
  : result (Model A) :=
  if (1 <? length lookup_tables)%nat then
    if negb (forallb is_quantity lookup_tables) then Raise TypeError
    else _generate_compound_model lookup_tables mesh
  else
    lt0 ← getitem lookup_tables 0;
    generate_tabular lt0.

(** Applying a construction function to the held table.  The builders
    pair [ModelFromQuantity] and [GenerateSkycoordLookup] with a tuple and
    [GenerateTimeLookup] with one array, and slicing keeps that shape; the
    other pairings are given a [TypeError]. *)
Definition apply_model_function (f : model_function)
    (table : lookup_table_value A) : result (Model A) :=
  match f, table with
  | ModelFromQuantity mesh, Components l => _model_from_quantity l mesh
  | GenerateTimeLookup, Single deltas => _model_from_quantity [deltas] false
  | GenerateSkycoordLookup mesh, Components l => _model_from_quantity l mesh
  | _, _ => Raise TypeError
  end.

(** [DelayedLookupTable.__call__] *)
Definition DelayedLookupTable__call__ (self : DelayedLookupTable A)
  : M A U (Model A) :=
  record_call (model_function_of self) (lookup_table self);;
  lift (apply_model_function (model_function_of self) (lookup_table self)).

(** [DelayedLookupTable.__getitem__]; the new instance is built with two
    arguments, so its [mesh] is the constructor's default [True]. *)
Definition DelayedLookupTable__getitem__ (self : DelayedLookupTable A)
    (it : item) : result (DelayedLookupTable A) :=
  newlt ←
    match lookup_table self with
    | Components l =>
        if mesh self then
          match it with
          | Tuple t =>
              if negb (length t =? length l)%nat then Raise AssertionError
              else Components <$>
                     mapM (fun p : A * elem => array_getitem p.1 (Elem p.2))
                          (zip l t)
          | Elem _ => Raise TypeError
          end
        else Components <$> mapM (fun lt => array_getitem lt it) l
    | Single a => Single <$> array_getitem a it
    end;
  Ok (mkDelayed newlt (model_function_of self) true).

(** [unit] is the single unit both callers pass; the method replicates
    it over the axes before classifying them. *)
Definition _generate_generic_frame (naxes : nat) (unit : U)
    (names physical_types : option (list string)) : Frame U :=
  let axes_order := axis_range 0 naxes in
  let unit := replicate naxes unit in
  let axes_type :=
    if forallb (is_equivalent u_m) unit then "SPATIAL" else "CUSTOM" in
  let '(name, axes_type) :=
    if forallb (is_equivalent u_pix) unit
    then (Some "PixelFrame", "PIXEL") else (None, axes_type) in
  mkFrame CoordinateFrame naxes (replicate naxes axes_type) axes_order unit
    names name physical_types.

Definition _from_time (lookup_tables : list A) (mesh : bool)
    (names physical_types : option (list string))
  : result (DelayedLookupTable A * Frame U) :=
  if (1 <? length lookup_tables)%nat then Raise ValueError
  else
    time ← getitem lookup_tables 0;
    deltas ← time_deltas time;
    _ ← array_getitem time (Elem (EInt 0));
    let frame := mkFrame TemporalFrame 1 ["TEMPORAL"] [0] [u_s] names
                   (Some "TemporalFrame") None in
    Ok (mkDelayed (Single deltas) GenerateTimeLookup mesh, frame).

Definition _from_skycoord (lookup_tables : list A) (mesh : bool)
    (names physical_types : option (list string))
  : result (DelayedLookupTable A * Frame U) :=
  if (1 <? length lookup_tables)%nat then Raise ValueError
  else
    sc ← getitem lookup_tables 0;
    let components := sky_components sc in
    let units := map unit_of components in
    let frame := mkFrame CelestialFrame 2 ["SPATIAL"; "SPATIAL"] [0; 1] units
                   names (Some "CelestialFrame") physical_types in
    Ok (mkDelayed (Components components) (GenerateSkycoordLookup mesh) mesh,
        frame).

(** [all(lt.unit.is_equivalent(lt[0].unit) for lt in lookup_tables)]:
    each table is compared with its own first element. *)
Fixpoint all_units_equivalent (lookup_tables : list A) : result bool :=
  match lookup_tables with
  | [] => Ok true
  | lt :: rest =>
      lt_0 ← array_getitem lt (Elem (EInt 0));
      if is_equivalent (unit_of lt) (unit_of lt_0)
      then all_units_equivalent rest
      else Ok false
  end.

Definition _from_quantity (lookup_tables : list A) (mesh : bool)
    (names physical_types : option (list string))
  : result (DelayedLookupTable A * Frame U) :=
  equivalent ← all_units_equivalent lookup_tables;
  if negb equivalent then
    Raise (UnitsError "All lookup tables must have equivalent units.")
  else
    unit ← quantity_unit lookup_tables;
    let frame := _generate_generic_frame (length lookup_tables) unit
                   names physical_types in
    Ok (mkDelayed (Components lookup_tables) (ModelFromQuantity mesh) mesh,
        frame).

(** *** LookupTableCoord *)

(** [LookupTableCoord.__init__]; returns the reference to the new
    instance. *)
Definition LookupTableCoord__init__ (lookup_tables : list A) (mesh : bool)
    (names physical_types : option (list string)) : M A U ref :=
  dm ← new_model_list [];
  fr ← new_frame_list [];
  self ← new_instance (mkCoord dm fr);
  match lookup_tables with
  | [] => mret self
  | lt0 :: _ =>
      if negb (forallb (fun lt => table_type_eqb (type_of lt) (type_of lt0))
                 lookup_tables)
      then raise TypeError
      else if negb (forallb (fun lt => bool_decide
                               (array_shape lt0 = array_shape lt))
                      lookup_tables)
      then raise ValueError
      else
        built ← lift (match type_of lt0 with
                      | Quantity =>
                          _from_quantity lookup_tables mesh names physical_types
                      | Time =>
                          _from_time lookup_tables mesh names physical_types
                      | SkyCoord =>
                          _from_skycoord lookup_tables mesh names physical_types
                      | OtherType _ => Raise KeyError
                      end);
        dm ← new_model_list [built.1];
        frame ← new_frame built.2;
        fr ← new_frame_list [frame];
        set_instance self (mkCoord dm fr);;
        mret self
  end.

(** The loop of [__and__] that re-indexes the frames in place. *)
Fixpoint reindex_frames (ind : nat) (fs : list ref) : M A U () :=
  match fs with
  | [] => mret ()
  | f :: rest =>
      frame ← deref frame_objects f;
      let new_ind := (ind + naxes frame)%nat in
      set_frame f (set_axes_order frame (axis_range ind new_ind));;
      reindex_frames new_ind rest
  end.

(** [LookupTableCoord.__and__].  [copy.copy] makes a new instance whose two
    attributes name the same list objects as [self]; [+=] on a list extends
    that list in place. *)
Definition LookupTableCoord__and__ (self : ref) (other : operand)
  : M A U ref :=
  match other with
  | Foreign _ => raise TypeError
  | Instance other =>
      me ← deref instances self;
      new_lutc ← new_instance me;
      n ← deref instances new_lutc;
      mine ← deref model_lists (delayed_models n);
      o ← deref instances other;
      theirs ← deref model_lists (delayed_models o);
      set_model_list (delayed_models n) (mine ++ theirs);;
      n ← deref instances new_lutc;
      mine ← deref frame_lists (frames n);
      o ← deref instances other;
      theirs ← deref frame_lists (frames o);
      set_frame_list (frames n) (mine ++ theirs);;
      n ← deref instances new_lutc;
      fs ← deref frame_lists (frames n);
      reindex_frames 0 fs;;
      mret new_lutc
  end.

(** The [ndim] property *)
Definition ndim (self : ref) : M A U nat :=
  me ← deref instances self;
  fs ← deref frame_lists (frames me);
  frames ← mapM (deref frame_objects) fs;
  mret (foldl (fun n frame => (n + length (_axes_order frame))%nat) 0%nat
          frames).

Definition is_integral (e : elem) : bool :=
  match e with EInt _ => true | _ => false end.

(** The loop of [__getitem__] over [zip(self.delayed_models, self.frames)];
    [dmodel()] realizes the model to read its [n_inputs]. *)
Fixpoint select (ind : nat) (pairs : list (DelayedLookupTable A * ref))
    (it : list elem) (new_dmodels : list (DelayedLookupTable A))
    (new_frames : list ref)
  : M A U (list (DelayedLookupTable A) * list ref) :=
  match pairs with
  | [] => mret (new_dmodels, new_frames)
  | (dmodel, frame) :: rest =>
      model ← DelayedLookupTable__call__ dmodel;
      let n_axes := n_inputs model in
      sub_items ← lift (mapM (fun i => getitem it (Z.of_nat i))
                          (seq ind n_axes));
      let ind := (ind + n_axes)%nat in
      if negb (forallb is_integral sub_items) then
        sliced ←
          lift (DelayedLookupTable__getitem__ dmodel (Tuple sub_items));
        select ind rest it (new_dmodels ++ [sliced]) (new_frames ++ [frame])
      else select ind rest it new_dmodels new_frames
  end.

(** [LookupTableCoord.__getitem__]; [None] is the bare [return]. *)
Definition LookupTableCoord__getitem__ (self : ref) (it : item)
  : M A U (option ref) :=
  nd ← ndim self;
  it ← lift (sanitize_slices it nd);
  me ← deref instances self;
  dms ← deref model_lists (delayed_models me);
  fs ← deref frame_lists (frames me);
  selected ← select 0 (zip dms fs) it [] [];
  match selected.1 with
  | [] => mret None
  | _ :: _ =>
      new_lutc ← LookupTableCoord__init__ [] true None None;
      dm ← new_model_list selected.1;
      fr ← new_frame_list selected.2;
      set_instance new_lutc (mkCoord dm fr);;
      mret (Some new_lutc)
  end.

(** [for m2 in self.delayed_models[1:]: model = model & m2()] *)
Fixpoint join_models (model : Model A) (rest : list (DelayedLookupTable A))
  : M A U (Model A) :=
  match rest with
  | [] => mret model
  | m2 :: rest' =>
      realized ← DelayedLookupTable__call__ m2;
      join_models (Join model realized) rest'
  end.

(** The [model] property *)
Definition model (self : ref) : M A U (Model A) :=
  me ← deref instances self;
  dms ← deref model_lists (delayed_models me);
  first ← lift (getitem dms 0);
  model ← DelayedLookupTable__call__ first;
  join_models model (tail_from_1 dms).

(** What the [frame] property returns: the single held frame, or a
    [CompositeFrame] over the held frames. *)
Inductive frame_value : Type :=
| HeldFrame (f : ref)
| CompositeFrame (fs : list ref).

(** The [frame] property *)
Definition frame (self : ref) : M A U frame_value :=
  me ← deref instances self;
  fs ← deref frame_lists (frames me);
  if (length fs =? 1)%nat then
    f ← lift (getitem fs 0);
    mret (HeldFrame f)
  else mret (CompositeFrame fs).

(** What [gwcs.WCS] is built from. *)
Record WCS : Type := mkWCS {
  forward_transform : Model A;
  input_frame : Frame U;
  output_frame : frame_value
}.

(** The [wcs] property; it reads [self.model] twice. *)
Definition wcs (self : ref) : M A U WCS :=
  forward ← model self;
  again ← model self;
  let input := _generate_generic_frame (n_inputs again) u_pix None None in
  output ← frame self;
  mret (mkWCS forward input output).

End Coord.

(** *** Notions the properties are stated with *)

(** The log entry an invocation of [d]'s construction function leaves. *)
Definition call_of {A} (d : DelayedLookupTable A)
  : model_function * lookup_table_value A :=
  (model_function_of d, lookup_table d).

(** A computation that invokes no construction function. *)
Definition silent {A U X} (m : M A U X) : Prop :=
  forall s : store A U, calls (m s).2 = calls s.

(** A computation that leaves the store as it found it. *)
Definition read_only {A U X} (m : M A U X) : Prop :=
  forall s : store A U, (m s).2 = s.

(** The number of axes of the frames [fs] refer to, in order. *)
Definition total_axes {U} (objects : gmap ref (Frame U)) (fs : list ref)
  : nat :=
  foldr (fun f n => (from_option naxes 0%nat (objects !! f) + n)%nat) 0%nat fs.

(** The instance at [r] holds as many delayed tables as frames, and each
    of its frames is in the store with as many entries in its axes order as
    it has axes. *)
Definition well_formed {A U} (s : store A U) (r : ref) : Prop :=
  exists (me : LookupTableCoord) (dms : list (DelayedLookupTable A))
         (fs : list ref),
    instances s !! r = Some me /\
    model_lists s !! delayed_models me = Some dms /\
    frame_lists s !! frames me = Some fs /\
    length dms = length fs /\
    Forall (fun f => exists fr : Frame U,
                       frame_objects s !! f = Some fr /\
                       length (_axes_order fr) = naxes fr) fs.

(** Every object of [s] is in [s'], unchanged. *)
Definition extends {A U} (s s' : store A U) : Prop :=
  (forall r x, model_lists s !! r = Some x -> model_lists s' !! r = Some x) /\
  (forall r x, frame_lists s !! r = Some x -> frame_lists s' !! r = Some x) /\
  (forall r x,
     frame_objects s !! r = Some x -> frame_objects s' !! r = Some x) /\
  (forall r x, instances s !! r = Some x -> instances s' !! r = Some x).

(** Every reference of [fs] names a frame of the store. *)
Definition frames_live {U} (objects : gmap ref (Frame U)) (fs : list ref)
  : Prop :=
  Forall (fun f => is_Some (objects !! f)) fs.

End LookupTable.

(** ** Concrete collaborators to evaluate on

    Cubes that are only their shape, one-dimensional tables over a handful
    of units, and stand-ins for the two astropy calls. *)

Module ShapeCube.
Import Py CubeUtils.

(** The length an axis of length [n] keeps under one index element;
    an integer removes the axis. *)
Definition index_axis (n : Z) (e : elem) : result (option Z) :=
  match e with
  | EInt i =>
      if (i <? - n) || (n <=? i) then Raise IndexError else Ok None
  | ESlice s =>
      '(b, e, st) ← slice_indices s n;
      Ok (Some (range_len b e st))
  | EOther _ => Raise IndexError
  end.

Fixpoint index_shape (shape : list Z) (t : list elem) : result (list Z) :=
  match t, shape with
  | [], _ => Ok shape
  | _ :: _, [] => Raise IndexError
  | e :: t', n :: shape' =>
      kept ← index_axis n e;
      rest ← index_shape shape' t';
      Ok (match kept with Some m => m :: rest | None => rest end)
  end.

Definition cube_getitem (shape : list Z) (it : item) : result (list Z) :=
  match it with
  | Elem e => index_shape shape [e]
  | Tuple t => index_shape shape t
  end.

Definition shape (c : list Z) : list Z := c.

Definition sequence_getitem (s : NDCubeSequence) (i : Z) : result (list Z) :=
  getitem (data s) i.

End ShapeCube.

Module Array1D.
Import Py LookupTable.

Inductive unit_name : Type := metre | kilometre | second | pixel | degree.

(** Units are equivalent when they measure the same physical quantity. *)
Definition equivalent (a b : unit_name) : bool :=
  match a, b with
  | (metre | kilometre), (metre | kilometre) => true
  | second, second | pixel, pixel | degree, degree => true
  | _, _ => false
  end.

(** A table is a typed, unit-tagged list of samples; [scalar] marks the
    zero-dimensional result of an integer index. *)
Record table : Type := mkTable {
  table_type_of : table_type;
  table_unit : unit_name;
  scalar : bool;
  samples : list Z
}.

Definition table_shape (t : table) : list Z :=
  if scalar t then [] else [Z.of_nat (length (samples t))].

Definition index_table (t : table) (e : elem) : result table :=
  if scalar t then Raise IndexError
  else match e with
       | EInt i =>
           v ← getitem (samples t) i;
           Ok (mkTable (table_type_of t) (table_unit t) true [v])
       | ESlice s =>
           '(b, e, st) ← slice_indices s (Z.of_nat (length (samples t)));
           vs ← mapM (getitem (samples t)) (range3 b e st);
           Ok (mkTable (table_type_of t) (table_unit t) false vs)
       | EOther _ => Raise IndexError
       end.

Definition table_getitem (t : table) (it : item) : result table :=
  match it with
  | Elem e => index_table t e
  | Tuple [] => Ok t
  | Tuple [e] => index_table t e
  | Tuple (_ :: _ :: _) => Raise IndexError
  end.

Definition deltas_of (t : table) : result table :=
  match samples t with
  | [] => Raise IndexError
  | first :: rest =>
      Ok (mkTable Quantity second false (0 :: map (fun v => v - first) rest))
  end.

Definition components_of (t : table) : list table :=
  [mkTable Quantity degree false (samples t);
   mkTable Quantity degree false (samples t)].

#[export] Instance tables : Tables table unit_name := {|
  type_of := table_type_of;
  array_shape := table_shape;
  unit_of := table_unit;
  array_getitem := table_getitem;
  is_equivalent := equivalent;
  u_m := metre;
  u_pix := pixel;
  u_s := second;
  time_deltas := deltas_of;
  sky_components := components_of
|}.

(** Stand-in for [u.Quantity(lookup_tables).unit]: the first table's unit
    once every table converts to it. *)
Definition quantity_unit (ts : list table) : result unit_name :=
  match ts with
  | [] => Raise ValueError
  | t0 :: _ =>
      if forallb (fun t => equivalent (table_unit t) (table_unit t0)) ts
      then Ok (table_unit t0)
      else Raise (UnitsError "units are not convertible")
  end.

(** Stand-in for [sanitize_slices]: a list [ndim] long of ints and
    step-free slices, padded with [slice(None)]. *)
Definition acceptable (e : elem) : bool :=
  match e with
  | EInt _ => true
  | ESlice s => match step s with
                | None | Some 1 => true
                | Some _ => false
                end
  | EOther _ => false
  end.

Definition sanitize_slices (it : item) (ndim : nat) : result (list elem) :=
  let slices := match it with Elem e => [e] | Tuple t => t end in
  if (ndim <? length slices)%nat then Raise ValueError
  else if negb (forallb acceptable slices) then Raise IndexError
  else Ok (slices ++ replicate (ndim - length slices) (ESlice slice_None)).

(** The tables used in the examples. *)
Definition pixels5 : table := mkTable Quantity pixel false [10; 20; 30; 40; 50].
Definition metres3 : table := mkTable Quantity metre false [1; 2; 3].
Definition seconds3 : table := mkTable Quantity second false [4; 5; 6].

(** Two aligned (non-mesh) components behind one delayed table. *)
Definition aligned_pair : DelayedLookupTable table :=
  mkDelayed (Components [metres3; metres3]) (ModelFromQuantity false) false.

(** [LookupTableCoord(pixels5)] in an empty store. *)
Definition one_coord : M table unit_name ref :=
  LookupTableCoord__init__ quantity_unit [pixels5] true None None.

(** [LookupTableCoord(pixels5)] and [LookupTableCoord(metres3)] in an
    empty store. *)
Definition two_coords : M table unit_name (ref * ref) :=
  a ← LookupTableCoord__init__ quantity_unit [pixels5] true None None;
  b ← LookupTableCoord__init__ quantity_unit [metres3] true None None;
  mret (a, b).

(** The store holding those two coordinates: the first is instance [1]
    with both lists at reference [2] and its frame at [1]; the second is
    instance [2] with both lists at reference [4] and its frame at [2]. *)
Definition two_store : store table unit_name := (two_coords empty_store).2.

(** The store holding [LookupTableCoord(pixels5)] as instance [1] and
    its slice [[1:4]] as instance [2]; both hold the frame at [1]. *)
Definition sliced_store : store table unit_name :=
  ((c ← one_coord;
    LookupTableCoord__getitem__ quantity_unit sanitize_slices c
      (Elem (ESlice (mkSlice (Some 1) (Some 4) None)))) empty_store).2.

(** [LookupTableCoord(pixels5) & LookupTableCoord(metres3)] *)
Definition composed : M table unit_name ref :=
  LookupTableCoord__and__ 1%positive (Instance 2%positive).

End Array1D.

(** * Properties *)

Import Py CubeUtils LookupTable.

(** ** Indexing Python sequences *)

Lemma getitem_nonneg {A} (l : list A) (i : nat) (x : A) :
  l !! i = Some x -> getitem l (Z.of_nat i) = Ok x.
Proof.
  intros Hl. unfold getitem. cbv zeta.
  pose proof (lookup_lt_Some _ _ _ Hl) as Hlt.
  assert (E : (Z.of_nat i <? 0) = false) by (apply Z.ltb_ge; lia).
  rewrite E. cbv iota. rewrite E.
  assert (E' : (Z.of_nat (length l) <=? Z.of_nat i) = false)
    by (apply Z.leb_gt; lia).
  rewrite E'. simpl. rewrite Nat2Z.id, Hl. reflexivity.
Qed.

Lemma getitem_negative {A} (l : list A) (k : nat) (x : A) :
  l !! k = Some x ->
  getitem l (Z.of_nat k - Z.of_nat (length l)) = Ok x.
Proof.
  intros Hl. unfold getitem. cbv zeta.
  pose proof (lookup_lt_Some _ _ _ Hl) as Hlt.
  assert (E : (Z.of_nat k - Z.of_nat (length l) <? 0) = true)
    by (apply Z.ltb_lt; lia).
  rewrite E. cbv iota.
  replace (Z.of_nat k - Z.of_nat (length l) + Z.of_nat (length l))
    with (Z.of_nat k) by lia.
  assert (E1 : (Z.of_nat k <? 0) = false) by (apply Z.ltb_ge; lia).
  assert (E2 : (Z.of_nat (length l) <=? Z.of_nat k) = false)
    by (apply Z.leb_gt; lia).
  rewrite E1, E2. simpl. rewrite Nat2Z.id, Hl. reflexivity.
Qed.

Lemma getitem_last {A} (l : list A) (x : A) :
  getitem (l ++ [x]) (-1) = Ok x.
Proof.
  replace (-1) with (Z.of_nat (length l) - Z.of_nat (length (l ++ [x])))
    by (rewrite length_app; simpl; lia).
  apply getitem_negative.
  rewrite lookup_app_r by lia. rewrite Nat.sub_diag. reflexivity.
Qed.

Lemma getitem_before_last {A} (l : list A) (y x : A) :
  getitem (l ++ [y; x]) (-2) = Ok y.
Proof.
  replace (-2) with (Z.of_nat (length l) - Z.of_nat (length (l ++ [y; x])))
    by (rewrite length_app; simpl; lia).
  apply getitem_negative.
  rewrite lookup_app_r by lia. rewrite Nat.sub_diag. reflexivity.
Qed.

Lemma getitem_inv {A} (l : list A) (i : Z) (x : A) :
  getitem l i = Ok x ->
  exists k : nat, l !! k = Some x /\
    Z.of_nat k = (if i <? 0 then i + Z.of_nat (length l) else i).
Proof.
  unfold getitem. intros Hg.
  set (j := if i <? 0 then i + Z.of_nat (length l) else i) in *.
  destruct ((j <? 0) || (Z.of_nat (length l) <=? j)) eqn:Hb; [discriminate|].
  apply orb_false_iff in Hb as [Hj _]. apply Z.ltb_ge in Hj.
  destruct (l !! Z.to_nat j) eqn:Hl; [|discriminate].
  exists (Z.to_nat j). split; [congruence | lia].
Qed.

(** ** Cumulative extents *)

Lemma where_le_from_app (a b : list Z) (k x : Z) :
  where_le_from k (a ++ b) x =
  where_le_from k a x ++ where_le_from (k + Z.of_nat (length a)) b x.
Proof.
  revert k. induction a as [|y a IH]; intros k.
  - cbn [app where_le_from length].
    replace (k + Z.of_nat 0) with k by lia. reflexivity.
  - cbn [app where_le_from length]. rewrite IH.
    replace (k + 1 + Z.of_nat (length a))
      with (k + Z.of_nat (S (length a))) by lia.
    destruct (y <=? x); reflexivity.
Qed.

(** Every position [np.where] reports is in range and holds a value at
    most [x]. *)
Lemma where_le_from_elem (a : list Z) (k x j : Z) :
  j ∈ where_le_from k a x ->
  exists (i : nat) (y : Z), j = k + Z.of_nat i /\ a !! i = Some y /\ y <= x.
Proof.
  revert k. induction a as [|y a IH]; intros k Hj; simpl in Hj.
  - apply elem_of_nil in Hj. contradiction.
  - destruct (y <=? x) eqn:Hy.
    + apply elem_of_cons in Hj as [-> | Hj].
      * exists 0%nat, y. split; [lia|]. split; [reflexivity|].
        apply Z.leb_le, Hy.
      * destruct (IH _ Hj) as (i & z & -> & Hi & Hz).
        exists (S i), z. split; [lia|]. split; assumption.
    + destruct (IH _ Hj) as (i & z & -> & Hi & Hz).
      exists (S i), z. split; [lia|]. split; assumption.
Qed.

Lemma non_decreasing_head (x : Z) (l : list Z) (y : Z) :
  non_decreasing (x :: l) = true -> y ∈ l -> x <= y.
Proof.
  revert x. induction l as [|z l IH]; intros x Hs Hy.
  - apply elem_of_nil in Hy. contradiction.
  - cbn [non_decreasing] in Hs. apply andb_true_iff in Hs as [Hxz Hs].
    apply Z.leb_le in Hxz.
    apply elem_of_cons in Hy as [-> | Hy]; [assumption|].
    specialize (IH z Hs Hy). lia.
Qed.


Lemma getitem_first_snoc (l : list Z) (x : Z) :
  exists first : Z, getitem (l ++ [x]) 0 = Ok first /\
    (non_decreasing (l ++ [x]) = true -> first <= x).
Proof.
  destruct l as [|z l].
  - exists x. split; [reflexivity | lia].
  - exists z. split; [reflexivity|].
    intros Hs. simpl in Hs. eapply non_decreasing_head; [exact Hs|].
    apply elem_of_app. right. apply elem_of_cons. left. reflexivity.
Qed.

Lemma extent_at_last (l : list Z) (x : Z) :
  extent_at (l ++ [x]) (Z.of_nat (length (l ++ [x])) - 1) = x.
Proof.
  unfold extent_at. rewrite length_app. simpl.
  replace (Z.to_nat (Z.of_nat (length l + 1) - 1)) with (length l) by lia.
  rewrite lookup_app_r by lia. rewrite Nat.sub_diag. reflexivity.
Qed.

Lemma extent_at_before_last (l : list Z) (y x : Z) :
  extent_at (l ++ [y; x]) (Z.of_nat (length (l ++ [y; x])) - 2) = y.
Proof.
  unfold extent_at. rewrite length_app. simpl.
  replace (Z.to_nat (Z.of_nat (length l + 2) - 2)) with (length l) by lia.
  rewrite lookup_app_r by lia. rewrite Nat.sub_diag. reflexivity.
Qed.

(** C6: past the last extent, index resolution does not fail; it answers
    with the last cube and that cube's last offset:
    [extents[last] - extents[last-1] - 1], or [extents[last] - 1] when
    there is one cube. *)
Theorem out_of_range_index_clamps (extents : list Z) (virtual_index : Z) :
  extents <> [] ->
  non_decreasing extents = true ->
  extent_at extents (Z.of_nat (length extents) - 1) - 1 < virtual_index ->
  _convert_cube_like_index_to_sequence_index virtual_index extents =
    Ok (SequenceIndex.mk (Z.of_nat (length extents) - 1)
          (if (length extents =? 1)%nat
           then extent_at extents (Z.of_nat (length extents) - 1) - 1
           else extent_at extents (Z.of_nat (length extents) - 1)
                - extent_at extents (Z.of_nat (length extents) - 2) - 1)).
Proof.
  intros Hne Hs Hlt.
  destruct (exists_last Hne) as (l & x & ->).
  rewrite extent_at_last in *.
  destruct (getitem_first_snoc l x) as (first & Hfirst & Hle).
  specialize (Hle Hs).
  unfold _convert_cube_like_index_to_sequence_index.
  rewrite Hfirst. cbn [mbind result_bind].
  assert (E : (virtual_index <? first) = false) by (apply Z.ltb_ge; lia).
  rewrite E.
  unfold np_where_le. rewrite where_le_from_app. cbn [where_le_from].
  assert (E1 : (x <=? virtual_index) = true) by (apply Z.leb_le; lia).
  rewrite E1, !getitem_last. cbn [mbind result_bind].
  assert (E2 : (x - 1 <? virtual_index) = true) by (apply Z.ltb_lt; lia).
  rewrite E2.
  assert (E3 : (0 + Z.of_nat (length l)
                <? Z.of_nat (length (l ++ [x])) - 1) = false)
    by (apply Z.ltb_ge; rewrite length_app; simpl; lia).
  assert (E4 : 0 + Z.of_nat (length l) = Z.of_nat (length (l ++ [x])) - 1)
    by (rewrite length_app; simpl; lia).
  destruct (length (l ++ [x]) =? 1)%nat eqn:Hone.
  - cbn [mbind result_bind]. rewrite E3, E4. reflexivity.
  - destruct l as [|y l _] using rev_ind; [discriminate|].
    rewrite <- app_assoc in *. cbn [app] in *.
    rewrite getitem_before_last. cbn [mbind result_bind].
    rewrite E3, E4, extent_at_before_last. reflexivity.
Qed.

Lemma out_of_range_index_clamps_witness :
  [3; 7; 10] <> [] /\
  non_decreasing [3; 7; 10] = true /\
  extent_at [3; 7; 10] 2 - 1 < 12 /\
  _convert_cube_like_index_to_sequence_index 12 [3; 7; 10] =
    Ok (SequenceIndex.mk 2 2).
Proof.
  split; [discriminate|]. split; [reflexivity|]. split; [reflexivity|].
  apply (out_of_range_index_clamps [3; 7; 10] 12);
    [discriminate | reflexivity | reflexivity].
Defined.

(** C7: a virtual index inside the declared range resolves, and the
    pair it resolves to stands for that same virtual index. *)
Theorem index_resolution_round_trip (extents : list Z) (virtual_index : Z) :
  extents <> [] ->
  0 <= virtual_index < extent_at extents (Z.of_nat (length extents) - 1) ->
  exists si : SequenceIndex.t,
    _convert_cube_like_index_to_sequence_index virtual_index extents = Ok si /\
    virtual_index_of extents si = Ok virtual_index.
Proof.
  intros Hne Hv.
  destruct (exists_last Hne) as (l & x & ->).
  rewrite extent_at_last in Hv.
  unfold _convert_cube_like_index_to_sequence_index.
  destruct (getitem_first_snoc l x) as (first & Hfirst & _).
  rewrite Hfirst. cbn [mbind result_bind].
  destruct (virtual_index <? first) eqn:Hlow.
  - eexists. split; [reflexivity|]. reflexivity.
  - apply Z.ltb_ge in Hlow.
    destruct l as [|z l].
    { injection Hfirst as <-. lia. }
    injection Hfirst as <-.
    assert (Hw : where_le_from 0 (z :: l) virtual_index <> []).
    { simpl. assert (E' : (z <=? virtual_index) = true)
        by (apply Z.leb_le; lia).
      rewrite E'. discriminate. }
    remember (z :: l) as l' eqn:Hl'. clear Hl' Hlow z l.
    unfold np_where_le. rewrite where_le_from_app.
    cbn [where_le_from].
    assert (E : (x <=? virtual_index) = false) by (apply Z.leb_gt; lia).
    rewrite E, app_nil_r.
    destruct (exists_last Hw) as (w & k & Hk).
    rewrite Hk, !getitem_last. cbn [mbind result_bind].
    assert (Hin : k ∈ where_le_from 0 l' virtual_index).
    { rewrite Hk. apply elem_of_app. right. apply elem_of_cons. left.
      reflexivity. }
    apply where_le_from_elem in Hin as (i & y & -> & Hi & Hy).
    pose proof (lookup_lt_Some _ _ _ Hi) as Hlen.
    assert (E2 : (x - 1 <? virtual_index) = false) by (apply Z.ltb_ge; lia).
    rewrite E2.
    replace (0 + Z.of_nat i) with (Z.of_nat i) by lia.
    assert (Hget : getitem (l' ++ [x]) (Z.of_nat i) = Ok y).
    { apply getitem_nonneg. rewrite lookup_app_l by exact Hlen. exact Hi. }
    rewrite Hget. cbn [mbind result_bind].
    assert (E3 : (Z.of_nat i <? Z.of_nat (length (l' ++ [x])) - 1) = true).
    { apply Z.ltb_lt. rewrite length_app. simpl length. lia. }
    rewrite E3. eexists. split; [reflexivity|].
    unfold virtual_index_of. cbn [SequenceIndex.sequence_index
                                  SequenceIndex.common_axis_index].
    assert (E4 : (Z.of_nat i + 1 =? 0) = false) by (apply Z.eqb_neq; lia).
    rewrite E4.
    replace (Z.of_nat i + 1 - 1) with (Z.of_nat i) by lia.
    rewrite Hget. cbn [mbind result_bind]. f_equal. lia.
Qed.

Lemma index_resolution_round_trip_witness :
  [3; 7; 10] <> [] /\
  0 <= 5 < extent_at [3; 7; 10] 2 /\
  exists si : SequenceIndex.t,
    _convert_cube_like_index_to_sequence_index 5 [3; 7; 10] = Ok si /\
    virtual_index_of [3; 7; 10] si = Ok 5.
Proof.
  split; [discriminate|]. split; [split; [discriminate | reflexivity]|].
  apply (index_resolution_round_trip [3; 7; 10] 5);
    [discriminate | split; [discriminate | reflexivity]].
Defined.

(** The two worked scenarios on extents [3, 7, 10]. *)
Example index_5_of_3_7_10 :
  _convert_cube_like_index_to_sequence_index 5 [3; 7; 10]
  = Ok (SequenceIndex.mk 1 2).
Proof. reflexivity. Qed.

Example slice_2_8_of_3_7_10 :
  _convert_cube_like_slice_to_sequence_indices
    (mkSlice (Some 2) (Some 8) None) [3; 7; 10]
  = Ok [SequenceIndex.mk 0 2; SequenceIndex.mk 1 0; SequenceIndex.mk 1 1;
        SequenceIndex.mk 1 2; SequenceIndex.mk 1 3; SequenceIndex.mk 2 0].
Proof. reflexivity. Qed.

(** ** Sequence-native slices *)

(** C10: a slice over the sequence axis is enumerated with [range] on its
    own fields.  With [start] or [stop] omitted the resolution raises a
    [TypeError]; with both given it enumerates [range(start, stop)] or
    [range(start, stop, step)], pairing each cube with [slice(None)]. *)
Theorem native_slice_needs_explicit_bounds (s : slice) :
  (start s = None \/ stop s = None ->
   convert_item_to_sequence_slices (Elem (ESlice s)) = Raise TypeError) /\
  (forall a b : Z, start s = Some a -> stop s = Some b ->
   convert_item_to_sequence_slices (Elem (ESlice s)) =
     match step s with
     | None =>
         Ok (map (fun i => SequenceSlice.mk i (Elem (ESlice slice_None)))
               (range3 a b 1))
     | Some c =>
         if c =? 0 then Raise ValueError
         else Ok (map (fun i => SequenceSlice.mk i (Elem (ESlice slice_None)))
                    (range3 a b c))
     end).
Proof.
  destruct s as [a b c].
  cbn [convert_item_to_sequence_slices start stop step].
  unfold get_sequence_slices_from_slice_item. cbn [start stop step].
  split.
  - intros [-> | ->].
    + reflexivity.
    + destruct a; reflexivity.
  - intros a' b' -> ->. destruct c as [c|]; [|reflexivity].
    simpl. destruct (c =? 0); reflexivity.
Qed.

Lemma native_slice_needs_explicit_bounds_witness :
  convert_item_to_sequence_slices (Elem (ESlice (mkSlice None (Some 3) None)))
    = Raise TypeError /\
  convert_item_to_sequence_slices
    (Elem (ESlice (mkSlice (Some 0) (Some 2) None)))
    = Ok [SequenceSlice.mk 0 (Elem (ESlice slice_None));
          SequenceSlice.mk 1 (Elem (ESlice slice_None))].
Proof.
  split.
  - apply (proj1 (native_slice_needs_explicit_bounds
                    (mkSlice None (Some 3) None))).
    left. reflexivity.
  - apply (proj2 (native_slice_needs_explicit_bounds
                    (mkSlice (Some 0) (Some 2) None)) 0 2);
      reflexivity.
Defined.

(** ** Cube-like tuple items *)

Section TupleItems.

Context {Cube : Type}.
Variable shape : Cube -> list Z.
Variable sequence_getitem : @NDCubeSequence Cube -> Z -> result Cube.

(** Whatever the tuple holds, its resolution raises: the two branches
    that would resolve it read the unbound name [item]. *)
Lemma tuple_item_never_resolves (cs : NDCubeSequence) (t : list elem) :
  is_ok (convert_cube_like_item_to_sequence_slices
           shape sequence_getitem cs (Tuple t)) = false.
Proof.
  unfold convert_cube_like_item_to_sequence_slices.
  destruct (mapM _ (data cs)) as [lengths|e]; [|reflexivity].
  cbn [mbind result_bind].
  destruct (length t <? _common_axis cs)%nat.
  - destruct (sequence_getitem cs 0); reflexivity.
  - destruct (getitem t (Z.of_nat (_common_axis cs))) as [[i|s|r]|e];
      reflexivity.
Qed.

End TupleItems.

(** C2: on the two-cube sequence of lengths 2 and 5 with common axis 0,
    the item [(slice(1, 3), 0, slice(None))] does not resolve to two
    [SequenceSlice] values: the resolution raises [NameError]. *)
Theorem tuple_scenario_raises_NameError :
  convert_cube_like_item_to_sequence_slices
    ShapeCube.shape ShapeCube.sequence_getitem
    (mkSeq [[2; 3; 4]; [5; 3; 4]] 0)
    (Tuple [ESlice (mkSlice (Some 1) (Some 3) None); EInt 0;
            ESlice slice_None])
  = Raise (NameError "item").
Proof. reflexivity. Qed.

Lemma getitem_at_length {A} (l : list A) :
  getitem l (Z.of_nat (length l)) = Raise IndexError.
Proof.
  unfold getitem. cbv zeta.
  assert (E : (Z.of_nat (length l) <? 0) = false) by (apply Z.ltb_ge; lia).
  rewrite E. cbv iota. rewrite E, Z.leb_refl. reflexivity.
Qed.

(** C8: a tuple whose length is exactly the common axis passes the
    length check; once the cube extents are read, what is raised is the
    [IndexError] of indexing the tuple at the common axis, not the
    [ValueError] of the check. *)
Theorem tuple_of_common_axis_length_raises_IndexError
    (Cube : Type) (shape : Cube -> list Z)
    (sequence_getitem : @NDCubeSequence Cube -> Z -> result Cube)
    (cubes : list Cube) (t : list elem) :
  convert_cube_like_item_to_sequence_slices
    shape sequence_getitem (mkSeq cubes (length t)) (Tuple t)
  = match mapM (fun c => getitem (shape c) (Z.of_nat (length t))) cubes with
    | Ok _ => Raise IndexError
    | Raise e => Raise e
    end.
Proof.
  unfold convert_cube_like_item_to_sequence_slices.
  cbn [_common_axis data].
  destruct (mapM _ cubes) as [lengths|e]; [|reflexivity].
  cbn [mbind result_bind].
  rewrite Nat.ltb_irrefl, getitem_at_length. reflexivity.
Qed.

(** ** Applying the resolved slices *)

(** C5: for a list of exactly one [SequenceSlice], [slice_sequence] does
    not return the bare sliced cube: once the cube is selected, reading
    the attribute [cube_slice] raises [AttributeError]. *)
Theorem single_slice_raises_AttributeError
    (Cube : Type) (cube_getitem : Cube -> item -> result Cube)
    (cubesequence : @NDCubeSequence Cube) (s0 : SequenceSlice.t) :
  slice_sequence cube_getitem cubesequence [s0]
  = match getitem (data cubesequence) (SequenceSlice.sequence_index s0) with
    | Ok _ => Raise (AttributeError "cube_slice")
    | Raise e => Raise e
    end.
Proof.
  unfold slice_sequence. cbn [length Nat.eqb].
  change (getitem [s0] 0) with (Ok s0). cbn [mbind result_bind].
  destruct (getitem (data cubesequence) _); reflexivity.
Qed.

(** With any other number of slices the sliced cubes come back as a
    sequence, in list order. *)
Lemma several_slices_give_sequence
    (Cube : Type) (cube_getitem : Cube -> item -> result Cube)
    (cubesequence : @NDCubeSequence Cube)
    (sequence_slices : list SequenceSlice.t) :
  length sequence_slices <> 1%nat ->
  slice_sequence cube_getitem cubesequence sequence_slices
  = (cubes ← mapM (fun ss =>
                     cube ← getitem (data cubesequence)
                              (SequenceSlice.sequence_index ss);
                     cube_getitem cube (SequenceSlice.cube_item ss))
                  sequence_slices;
     Ok (Sequence (mkSeq cubes (_common_axis cubesequence)))).
Proof.
  intros Hlen. unfold slice_sequence.
  apply Nat.eqb_neq in Hlen. rewrite Hlen. reflexivity.
Qed.

(** ** Delayed lookup tables *)

Import Array1D.

Section Delayed.

Context {A U : Type} `{Tables A U}.

(** Slicing keeps the construction function and answers with [mesh] set,
    whatever the flag of the table that was sliced. *)
Lemma DelayedLookupTable__getitem__fields
    (d d' : DelayedLookupTable A) (it : item) :
  DelayedLookupTable__getitem__ d it = Ok d' ->
  model_function_of d' = model_function_of d /\ mesh d' = true.
Proof.
  unfold DelayedLookupTable__getitem__.
  destruct (match lookup_table d with Single _ => _ | Components _ => _ end);
    cbn [mbind result_bind]; [|discriminate].
  intros [= <-]. split; reflexivity.
Qed.

(** A lone array is sliced with the item as it is. *)
Lemma DelayedLookupTable__getitem__single
    (a : A) (f : model_function) (m : bool) (it : item) :
  lookup_table <$> DelayedLookupTable__getitem__ (mkDelayed (Single a) f m) it
  = Single <$> array_getitem a it.
Proof.
  unfold DelayedLookupTable__getitem__. cbn [lookup_table].
  destruct (array_getitem a it); reflexivity.
Qed.

(** Aligned components are each sliced with the same item. *)
Lemma DelayedLookupTable__getitem__aligned
    (l : list A) (f : model_function) (it : item) :
  lookup_table <$>
    DelayedLookupTable__getitem__ (mkDelayed (Components l) f false) it
  = Components <$> mapM (fun lt => array_getitem lt it) l.
Proof.
  unfold DelayedLookupTable__getitem__. cbn [lookup_table mesh].
  destruct (mapM _ l); reflexivity.
Qed.

(** The guard of [_from_quantity] compares every table with itself: it
    never answers [False]. *)
Lemma all_units_equivalent_never_false `{!TablesLaws A U}
    (lookup_tables : list A) :
  all_units_equivalent lookup_tables <> Ok false.
Proof.
  induction lookup_tables as [|lt rest IH]; [discriminate|].
  cbn [all_units_equivalent].
  destruct (array_getitem lt (Elem (EInt 0))) as [lt_0|e] eqn:Hg;
    cbn [mbind result_bind]; [|discriminate].
  rewrite (array_getitem_unit _ _ _ Hg), is_equivalent_refl. exact IH.
Qed.

End Delayed.

(** The one-dimensional tables obey the laws the module relies on. *)
#[export] Instance tables_laws : TablesLaws table unit_name.
Proof.
  split.
  - intros []; reflexivity.
  - intros a a' it Hget. cbn in *. unfold table_getitem, index_table in Hget.
    assert (Hone : forall e : elem,
              (if scalar a then Raise IndexError
               else match e with
                    | EInt i =>
                        v ← getitem (samples a) i;
                        Ok (mkTable (table_type_of a) (table_unit a) true [v])
                    | ESlice s =>
                        '(b, e', st) ←
                          slice_indices s (Z.of_nat (length (samples a)));
                        vs ← mapM (getitem (samples a)) (range3 b e' st);
                        Ok (mkTable (table_type_of a) (table_unit a) false vs)
                    | EOther _ => Raise IndexError
                    end) = Ok a' -> table_unit a' = table_unit a).
    { intros e He. destruct (scalar a); [discriminate|].
      destruct e as [i|s|r]; [| |discriminate].
      - destruct (getitem (samples a) i); [|discriminate].
        injection He as <-. reflexivity.
      - destruct (slice_indices s _) as [[[b e'] st]|]; [|discriminate].
        cbn [mbind result_bind] in He.
        destruct (mapM _ _); [|discriminate].
        injection He as <-. reflexivity. }
    destruct it as [e|[|e [|e' t]]].
    + exact (Hone e Hget).
    + injection Hget as <-. reflexivity.
    + exact (Hone e Hget).
    + discriminate.
Qed.

(** C4: slicing the aligned pair, whose [mesh] flag is [False], gives a
    table with the same construction function and both components sliced,
    but with the [mesh] flag [True]. *)
Theorem sliced_table_resets_mesh :
  mesh aligned_pair = false /\
  DelayedLookupTable__getitem__ aligned_pair
    (Elem (ESlice (mkSlice (Some 0) (Some 2) None)))
  = Ok (mkDelayed
          (Components [mkTable Quantity metre false [1; 2];
                       mkTable Quantity metre false [1; 2]])
          (ModelFromQuantity false) true).
Proof. split; reflexivity. Qed.

(** For a table in metres and a table in seconds the guard of
    [_from_quantity] holds and its own units error is not raised: the
    outcome is what [u.Quantity(lookup_tables)] makes of the two tables. *)
Lemma inequivalent_units_pass_the_guard
    (quantity_unit : list table -> result unit_name) (mesh : bool)
    (names physical_types : option (list string)) :
  equivalent (table_unit metres3) (table_unit seconds3) = false /\
  all_units_equivalent [metres3; seconds3] = Ok true /\
  _from_quantity quantity_unit [metres3; seconds3] mesh names physical_types
  = (unit ← quantity_unit [metres3; seconds3];
     Ok (mkDelayed (Components [metres3; seconds3]) (ModelFromQuantity mesh)
           mesh,
         _generate_generic_frame 2 unit names physical_types)).
Proof. repeat split; reflexivity. Qed.

(** ** Effects of the store computations *)

Section Effects.

Context {A U : Type}.

Lemma bind_run {X Y} (m : M A U X) (f : X -> M A U Y) (s : store A U) :
  (m ≫= f) s = match m s with
               | (Ok x, s') => f x s'
               | (Raise e, s') => (Raise e, s')
               end.
Proof. reflexivity. Qed.

Lemma bind_Ok_inv {X Y} (m : M A U X) (f : X -> M A U Y)
    (s s' : store A U) (y : Y) :
  (m ≫= f) s = (Ok y, s') ->
  exists (x : X) (s1 : store A U), m s = (Ok x, s1) /\ f x s1 = (Ok y, s').
Proof.
  rewrite bind_run. destruct (m s) as [[x|e] s1]; [|discriminate].
  intros Hf. exists x, s1. split; [reflexivity | exact Hf].
Qed.

Lemma silent_bind {X Y} (m : M A U X) (f : X -> M A U Y) :
  silent m -> (forall x, silent (f x)) -> silent (m ≫= f).
Proof.
  intros Hm Hf s. rewrite bind_run. specialize (Hm s).
  destruct (m s) as [[x|e] s1]; cbn [snd] in *.
  - rewrite Hf. exact Hm.
  - exact Hm.
Qed.

Lemma read_only_bind {X Y} (m : M A U X) (f : X -> M A U Y) :
  read_only m -> (forall x, read_only (f x)) -> read_only (m ≫= f).
Proof.
  intros Hm Hf s. rewrite bind_run. specialize (Hm s).
  destruct (m s) as [[x|e] s1]; cbn [snd] in *; subst s1.
  - apply Hf.
  - reflexivity.
Qed.

Lemma read_only_silent {X} (m : M A U X) : read_only m -> silent m.
Proof. intros Hm s. rewrite Hm. reflexivity. Qed.

Lemma read_only_ret {X} (x : X) : read_only (mret x : M A U X).
Proof. intros s. reflexivity. Qed.

Lemma read_only_raise {X} (e : exn) : read_only (raise e : M A U X).
Proof. intros s. reflexivity. Qed.

Lemma read_only_lift {X} (r : result X) : read_only (lift r : M A U X).
Proof. intros s. reflexivity. Qed.

Lemma read_only_deref {X} (heap : store A U -> gmap ref X) (r : ref) :
  read_only (deref heap r).
Proof. intros s. unfold deref. destruct (heap s !! r); reflexivity. Qed.

Lemma read_only_mapM {X Y} (f : X -> M A U Y) (l : list X) :
  (forall x, read_only (f x)) -> read_only (mapM f l).
Proof.
  intros Hf. induction l as [|x l IH]; cbn [mapM].
  - apply read_only_ret.
  - apply read_only_bind; [apply Hf|]. intros y.
    apply read_only_bind; [exact IH|]. intros k. apply read_only_ret.
Qed.

Lemma deref_Ok_inv {X} (heap : store A U -> gmap ref X) (r : ref)
    (s s' : store A U) (x : X) :
  deref heap r s = (Ok x, s') -> heap s !! r = Some x /\ s' = s.
Proof.
  unfold deref. destruct (heap s !! r); [|discriminate].
  intros [= -> ->]. split; reflexivity.
Qed.

Lemma silent_new_model_list (l : list (DelayedLookupTable A)) :
  silent (new_model_list l : M A U ref).
Proof. intros s. reflexivity. Qed.

Lemma silent_new_frame_list (l : list ref) :
  silent (new_frame_list l : M A U ref).
Proof. intros s. reflexivity. Qed.

Lemma silent_new_frame (f : Frame U) : silent (new_frame f : M A U ref).
Proof. intros s. reflexivity. Qed.

Lemma silent_new_instance (c : LookupTableCoord) :
  silent (new_instance c : M A U ref).
Proof. intros s. reflexivity. Qed.

Lemma silent_set_model_list (r : ref) (l : list (DelayedLookupTable A)) :
  silent (set_model_list r l : M A U ()).
Proof. intros s. reflexivity. Qed.

Lemma silent_set_frame_list (r : ref) (l : list ref) :
  silent (set_frame_list r l : M A U ()).
Proof. intros s. reflexivity. Qed.

Lemma silent_set_frame (r : ref) (f : Frame U) :
  silent (set_frame r f : M A U ()).
Proof. intros s. reflexivity. Qed.

Lemma silent_set_instance (r : ref) (c : LookupTableCoord) :
  silent (set_instance r c : M A U ()).
Proof. intros s. reflexivity. Qed.

End Effects.

Create HintDb effects.

#[local] Hint Resolve read_only_silent read_only_ret read_only_raise
  read_only_lift read_only_deref silent_new_model_list silent_new_frame_list
  silent_new_frame silent_new_instance silent_set_model_list
  silent_set_frame_list silent_set_frame silent_set_instance : effects.

(** Splits a goal [silent (m ≫= f)] along the binds. *)
Ltac silent_steps :=
  repeat first
    [ apply silent_bind; [|intros ?]
    | solve [eauto with effects] ].

Section Coordinates.

Context {A U : Type} `{Tables A U}.
Variable quantity_unit : list A -> result U.
Variable sanitize_slices : item -> nat -> result (list elem).

Lemma silent_reindex_frames (fs : list ref) (ind : nat) :
  silent (reindex_frames (A:=A) (U:=U) ind fs).
Proof.
  revert ind. induction fs as [|f fs IH]; intros ind; cbn [reindex_frames].
  - eauto with effects.
  - silent_steps.
Qed.

Lemma silent_init (lookup_tables : list A) (mesh : bool)
    (names physical_types : option (list string)) :
  silent (LookupTableCoord__init__ quantity_unit lookup_tables mesh names
            physical_types).
Proof.
  unfold LookupTableCoord__init__. silent_steps.
  destruct lookup_tables as [|lt0 rest]; [eauto with effects|].
  destruct (negb _); [eauto with effects|].
  destruct (negb _); [eauto with effects|].
  silent_steps.
Qed.

(** Composition invokes no construction function, whatever it returns
    or raises. *)
Lemma silent_and (self : ref) (other : operand) :
  silent (LookupTableCoord__and__ (A:=A) (U:=U) self other).
Proof.
  unfold LookupTableCoord__and__. destruct other as [o|r].
  - silent_steps. apply silent_reindex_frames.
  - eauto with effects.
Qed.

Lemma read_only_ndim (self : ref) : read_only (ndim (A:=A) (U:=U) self).
Proof.
  unfold ndim.
  apply read_only_bind; [apply read_only_deref|]. intros me.
  apply read_only_bind; [apply read_only_deref|]. intros fs.
  apply read_only_bind; [|intros; apply read_only_ret].
  apply read_only_mapM. intros f. apply read_only_deref.
Qed.

Lemma read_only_frame (self : ref) : read_only (frame (A:=A) (U:=U) self).
Proof.
  unfold frame.
  apply read_only_bind; [apply read_only_deref|]. intros me.
  apply read_only_bind; [apply read_only_deref|]. intros fs.
  destruct (length fs =? 1)%nat; [|apply read_only_ret].
  apply read_only_bind; [apply read_only_lift|]. intros f.
  apply read_only_ret.
Qed.

End Coordinates.

Section Slicing.

Context {A U : Type} `{Tables A U}.
Variable quantity_unit : list A -> result U.
Variable sanitize_slices : item -> nat -> result (list elem).

Lemma read_only_bind_Ok_inv {X Y} (m : M A U X) (f : X -> M A U Y)
    (s s' : store A U) (y : Y) :
  read_only m -> (m ≫= f) s = (Ok y, s') ->
  exists x : X, m s = (Ok x, s) /\ f x s = (Ok y, s').
Proof.
  intros Hm Hrun. apply bind_Ok_inv in Hrun as (x & s1 & Hx & Hf).
  pose proof (Hm s) as Hs. rewrite Hx in Hs. cbn [snd] in Hs. subst s1.
  exists x. split; assumption.
Qed.

(** A call that returns has left exactly its own entry in the log. *)
Lemma call_Ok_inv (d : DelayedLookupTable A) (s s' : store A U)
    (m : Model A) :
  DelayedLookupTable__call__ d s = (Ok m, s') ->
  s' = mkStore (model_lists s) (frame_lists s) (frame_objects s)
         (instances s) (calls s ++ [call_of d]).
Proof.
  unfold DelayedLookupTable__call__. rewrite bind_run.
  cbn [record_call lift].
  destruct (apply_model_function _ _); [|discriminate].
  intros [= _ <-]. reflexivity.
Qed.

Lemma select_calls (pairs : list (DelayedLookupTable A * ref)) :
  forall (ind : nat) (it : list elem)
         (new_dmodels : list (DelayedLookupTable A))
         (new_frames : list ref) (s s' : store A U)
         (r : list (DelayedLookupTable A) * list ref),
  select ind pairs it new_dmodels new_frames s = (Ok r, s') ->
  calls s' = calls s ++ map call_of pairs.*1.
Proof.
  induction pairs as [|[d f] pairs IH]; intros ind it nd nf s s' r Hrun.
  - cbn in Hrun. injection Hrun as _ <-. cbn. rewrite app_nil_r. reflexivity.
  - cbn [select] in Hrun.
    apply bind_Ok_inv in Hrun as (m & s1 & Hcall & Hrun).
    apply call_Ok_inv in Hcall.
    apply read_only_bind_Ok_inv in Hrun as (subs & _ & Hrun);
      [|apply read_only_lift].
    assert (Hs1 : calls s1 = calls s ++ [call_of d]) by (subst s1; reflexivity).
    transitivity (calls s1 ++ map call_of pairs.*1).
    + destruct (negb (forallb is_integral subs)).
      * apply read_only_bind_Ok_inv in Hrun as (sl & _ & Hrun);
          [|apply read_only_lift].
        exact (IH _ _ _ _ _ _ _ Hrun).
      * exact (IH _ _ _ _ _ _ _ Hrun).
    + rewrite Hs1, <- app_assoc. reflexivity.
Qed.

Lemma zip_fst_take {X Y} (l : list X) (k : list Y) :
  (zip l k).*1 = take (length k) l.
Proof.
  revert k. induction l as [|x l IH]; intros [|y k]; cbn; try reflexivity.
  f_equal. apply IH.
Qed.

End Slicing.

(** C1 (amended): composition invokes no construction function;
    sub-selection that returns has invoked the construction function of
    every held (delayed table, frame) pair exactly once, in list order, on
    the table as held, and no other. *)
Theorem slicing_realizes_each_held_table_once
    (A U : Type) (T : Tables A U)
    (quantity_unit : list A -> result U)
    (sanitize_slices : item -> nat -> result (list elem)) :
  (forall (s : store A U) (self : ref) (other : operand),
     calls (LookupTableCoord__and__ self other s).2 = calls s) /\
  (forall (s s' : store A U) (self : ref) (it : item) (r : option ref),
     LookupTableCoord__getitem__ quantity_unit sanitize_slices self it s
       = (Ok r, s') ->
     exists (me : LookupTableCoord) (dms : list (DelayedLookupTable A))
            (fs : list ref),
       instances s !! self = Some me /\
       model_lists s !! delayed_models me = Some dms /\
       frame_lists s !! frames me = Some fs /\
       calls s' = calls s ++ map call_of (take (length fs) dms)).
Proof.
  split.
  - intros s self other. apply silent_and.
  - intros s s' self it r Hrun.
    unfold LookupTableCoord__getitem__ in Hrun.
    apply read_only_bind_Ok_inv in Hrun as (nd & _ & Hrun);
      [|apply read_only_ndim].
    apply read_only_bind_Ok_inv in Hrun as (its & _ & Hrun);
      [|apply read_only_lift].
    apply read_only_bind_Ok_inv in Hrun as (me & Hme & Hrun);
      [|apply read_only_deref].
    apply read_only_bind_Ok_inv in Hrun as (dms & Hdms & Hrun);
      [|apply read_only_deref].
    apply read_only_bind_Ok_inv in Hrun as (fs & Hfs & Hrun);
      [|apply read_only_deref].
    apply deref_Ok_inv in Hme as [Hme _].
    apply deref_Ok_inv in Hdms as [Hdms _].
    apply deref_Ok_inv in Hfs as [Hfs _].
    exists me, dms, fs. repeat (split; [assumption|]).
    apply bind_Ok_inv in Hrun as (sel & s1 & Hsel & Hrun).
    apply select_calls in Hsel. rewrite zip_fst_take in Hsel.
    rewrite <- Hsel.
    assert (Hsilent : silent
      (match sel.1 with
       | [] => mret None
       | _ :: _ =>
           new_lutc ←
             LookupTableCoord__init__ quantity_unit [] true None None;
           dm ← new_model_list sel.1;
           fr ← new_frame_list sel.2;
           set_instance new_lutc (mkCoord dm fr);;
           mret (Some new_lutc)
       end : M A U (option ref))).
    { destruct sel.1; [eauto with effects|].
      apply silent_bind; [apply silent_init|]. intros ?. silent_steps. }
    specialize (Hsilent s1). rewrite Hrun in Hsilent. exact Hsilent.
Qed.

(** C1 (as stated, refuted): slicing the one-table coordinate with
    [slice(1, 4)] invokes the construction function of its table. *)
Lemma slicing_invokes_construction_function :
  calls (one_coord empty_store).2 = [] /\
  calls ((c ← one_coord;
          LookupTableCoord__getitem__ quantity_unit sanitize_slices c
            (Elem (ESlice (mkSlice (Some 1) (Some 4) None)))) empty_store).2
  = [(ModelFromQuantity true, Components [pixels5])].
Proof. split; vm_compute; reflexivity. Qed.

Lemma slicing_realizes_each_held_table_once_witness :
  exists s' : store table unit_name,
    LookupTableCoord__getitem__ quantity_unit sanitize_slices 1%positive
      (Elem (ESlice (mkSlice (Some 1) (Some 4) None)))
      (one_coord empty_store).2 = (Ok (Some 2%positive), s') /\
    exists (me : LookupTableCoord) (dms : list (DelayedLookupTable table))
           (fs : list ref),
      instances (one_coord empty_store).2 !! 1%positive = Some me /\
      model_lists (one_coord empty_store).2 !! delayed_models me = Some dms /\
      frame_lists (one_coord empty_store).2 !! frames me = Some fs /\
      calls s' = calls (one_coord empty_store).2
                 ++ map call_of (take (length fs) dms).
Proof.
  eexists. split.
  - vm_compute. reflexivity.
  - apply (proj2 (slicing_realizes_each_held_table_once
                    table unit_name tables quantity_unit sanitize_slices)
             (one_coord empty_store).2 _ 1%positive
             (Elem (ESlice (mkSlice (Some 1) (Some 4) None)))
             (Some 2%positive)).
    vm_compute. reflexivity.
Defined.

(** ** Composition and the frames it shares *)

Section Composition.

Context {A U : Type}.

Lemma total_axes_insert (objects : gmap ref (Frame U)) (f : ref)
    (fr : Frame U) (order : list Z) (fs : list ref) :
  objects !! f = Some fr ->
  total_axes (<[f := set_axes_order fr order]> objects) fs
  = total_axes objects fs.
Proof.
  intros Hf. induction fs as [|g fs IH]; [reflexivity|].
  cbn [total_axes foldr]. fold (total_axes objects fs).
  fold (total_axes (<[f := set_axes_order fr order]> objects) fs).
  rewrite IH. f_equal.
  destruct (decide (f = g)) as [<-|Hne].
  - rewrite lookup_insert_eq, Hf. reflexivity.
  - rewrite lookup_insert_ne by exact Hne. reflexivity.
Qed.

(** The re-indexing loop: a listed frame ends with the contiguous range
    of the last position it is listed at, a range that starts where the
    frames listed before that position end; nothing else changes. *)
Lemma reindex_frames_last (fs : list ref) :
  forall (ind : nat) (s : store A U),
  frames_live (frame_objects s) fs ->
  exists s' : store A U,
    reindex_frames ind fs s = (Ok (), s') /\
    model_lists s' = model_lists s /\
    frame_lists s' = frame_lists s /\
    instances s' = instances s /\
    (forall f : ref,
       f ∉ fs -> frame_objects s' !! f = frame_objects s !! f) /\
    (forall (i : nat) (f : ref), fs !! i = Some f ->
       (forall j : nat, (i < j)%nat -> fs !! j <> Some f) ->
       exists fr : Frame U,
         frame_objects s !! f = Some fr /\
         frame_objects s' !! f =
           Some (set_axes_order fr
                   (axis_range
                      (ind + total_axes (frame_objects s) (take i fs))
                      (ind + total_axes (frame_objects s) (take (S i) fs))))).
Proof.
  induction fs as [|f fs IH]; intros ind s Hlive.
  - exists s. cbn [reindex_frames]. repeat split; try reflexivity.
    intros i f Hi. rewrite lookup_nil in Hi. discriminate.
  - apply Forall_cons in Hlive as [[fr Hfr] Hlive].
    set (fr' := set_axes_order fr (axis_range ind (ind + naxes fr))).
    set (s1 := mkStore (model_lists s) (frame_lists s)
                 (<[f := fr']> (frame_objects s)) (instances s) (calls s)).
    destruct (IH (ind + naxes fr)%nat s1)
      as (s' & Hrun & Hm & Hl & Hi & Hout & Hin).
    { eapply Forall_impl; [exact Hlive|]. intros g Hg. cbn.
      destruct (decide (f = g)) as [<-|Hne].
      - rewrite lookup_insert_eq. eauto.
      - rewrite lookup_insert_ne by exact Hne. exact Hg. }
    exists s'. split; [|repeat split].
    + cbn [reindex_frames]. rewrite bind_run. unfold deref. rewrite Hfr.
      rewrite bind_run. cbn [set_frame]. exact Hrun.
    + exact Hm.
    + exact Hl.
    + exact Hi.
    + intros g Hg. apply not_elem_of_cons in Hg as [Hgf Hg].
      rewrite (Hout g Hg). cbn. rewrite lookup_insert_ne by congruence.
      reflexivity.
    + intros [|i] g Hg Hlast.
      * cbn in Hg. injection Hg as <-. exists fr. split; [exact Hfr|].
        assert (Hnotin : f ∉ fs).
        { intros Hmem. apply list_elem_of_lookup_1 in Hmem as (j & Hj).
          apply (Hlast (S j)); [lia | exact Hj]. }
        rewrite (Hout f Hnotin). cbn. rewrite lookup_insert_eq.
        cbn [take total_axes foldr]. rewrite Hfr. cbn [from_option].
        change (take 0 fs) with (@nil ref). cbn [foldr].
        subst fr'. do 3 f_equal; lia.
      * cbn in Hg.
        destruct (Hin i g Hg) as (fr1 & Hfr1 & Hafter).
        { intros j Hj Hgj. apply (Hlast (S j)); [lia | exact Hgj]. }
        assert (Hsame : exists fr0 : Frame U,
                  frame_objects s !! g = Some fr0 /\
                  forall order, set_axes_order fr1 order
                                = set_axes_order fr0 order).
        { cbn in Hfr1. destruct (decide (f = g)) as [<-|Hne].
          - rewrite lookup_insert_eq in Hfr1. injection Hfr1 as <-.
            exists fr. split; [exact Hfr|]. intros order. reflexivity.
          - rewrite lookup_insert_ne in Hfr1 by exact Hne.
            exists fr1. split; [exact Hfr1|]. reflexivity. }
        destruct Hsame as (fr0 & Hfr0 & Horder).
        exists fr0. split; [exact Hfr0|]. rewrite Hafter, Horder.
        cbn [frame_objects s1]. subst fr'.
        rewrite !(total_axes_insert _ _ _ _ _ Hfr).
        cbn [take total_axes foldr]. rewrite Hfr. cbn [from_option].
        fold (total_axes (frame_objects s) (take i fs)).
        fold (total_axes (frame_objects s) (take (S i) fs)).
        do 3 f_equal; lia.
Qed.

End Composition.

(** C3 (amended): for operands whose lists are distinct objects,
    [A & B] returns a new instance holding the concatenation of the
    operands' delayed tables and frames, and leaves [B]'s two lists as they
    were; the frames themselves are not copied: each frame of the
    composite, a frame of an operand, has its axes order re-assigned to the
    contiguous range of its position in the composite, of its last position
    when the same frame is held more than once. *)
Theorem composition_reindexes_operand_frames
    (A U : Type) (s : store A U) (self other : ref) (a b : LookupTableCoord)
    (dmA dmB : list (DelayedLookupTable A)) (frA frB : list ref) :
  instances s !! self = Some a ->
  instances s !! other = Some b ->
  model_lists s !! delayed_models a = Some dmA ->
  model_lists s !! delayed_models b = Some dmB ->
  frame_lists s !! frames a = Some frA ->
  frame_lists s !! frames b = Some frB ->
  delayed_models b <> delayed_models a ->
  frames b <> frames a ->
  frames_live (frame_objects s) (frA ++ frB) ->
  exists (new_lutc : ref) (s' : store A U) (n : LookupTableCoord),
    LookupTableCoord__and__ self (Instance other) s = (Ok new_lutc, s') /\
    instances s !! new_lutc = None /\
    instances s' !! new_lutc = Some n /\
    model_lists s' !! delayed_models n = Some (dmA ++ dmB) /\
    frame_lists s' !! frames n = Some (frA ++ frB) /\
    instances s' !! other = Some b /\
    model_lists s' !! delayed_models b = Some dmB /\
    frame_lists s' !! frames b = Some frB /\
    forall (i : nat) (f : ref), (frA ++ frB) !! i = Some f ->
      (forall j : nat, (i < j)%nat -> (frA ++ frB) !! j <> Some f) ->
      exists fr : Frame U,
        frame_objects s !! f = Some fr /\
        frame_objects s' !! f =
          Some (set_axes_order fr
                  (axis_range
                     (total_axes (frame_objects s) (take i (frA ++ frB)))
                     (total_axes (frame_objects s)
                        (take (S i) (frA ++ frB))))).
Proof.
  intros Hself Hother HdmA HdmB HfrA HfrB Hdm Hfr Hlive.
  set (new_lutc := fresh (dom (instances s))).
  assert (Hfresh : instances s !! new_lutc = None).
  { apply not_elem_of_dom. apply is_fresh. }
  assert (Hne : new_lutc <> other) by congruence.
  set (s3 := mkStore (<[delayed_models a := dmA ++ dmB]> (model_lists s))
               (<[frames a := frA ++ frB]> (frame_lists s))
               (frame_objects s) (<[new_lutc := a]> (instances s)) (calls s)).
  destruct (reindex_frames_last (frA ++ frB) 0 s3 Hlive)
    as (s' & Hrun & Hm & Hl & Hi & _ & Hin).
  exists new_lutc, s', a.
  split; [|split; [exact Hfresh|]].
  - unfold LookupTableCoord__and__.
    unfold deref.
    rewrite bind_run, Hself.
    rewrite bind_run. cbn [new_instance]. fold new_lutc.
    repeat (rewrite bind_run; cbv beta;
            cbn [instances model_lists frame_lists frame_objects calls
                 set_model_list set_frame_list];
            rewrite ?lookup_insert_eq, ?(lookup_insert_ne _ _ _ _ Hne),
              ?Hother, ?HdmA, ?HdmB, ?HfrA, ?HfrB).
    fold s3. rewrite Hrun. reflexivity.
  - rewrite Hm, Hl, Hi. cbn [instances model_lists frame_lists s3].
    rewrite !lookup_insert_eq.
    rewrite (lookup_insert_ne _ _ _ _ Hne).
    rewrite !lookup_insert_ne by congruence.
    repeat (split; [reflexivity || assumption|]).
    intros i f Hf Hlast.
    destruct (Hin i f Hf Hlast) as (fr & Hbefore & Hafter).
    exists fr. split; [exact Hbefore | exact Hafter].
Qed.

(** C3 (as stated, refuted): after composing the two one-table
    coordinates, the frame of the right operand has axes order [(1,)]
    instead of [(0,)], and the list of delayed tables of the left operand
    holds two tables instead of one. *)
Lemma composition_changes_its_operands :
  instances two_store !! 1%positive = Some (mkCoord 2%positive 2%positive) /\
  instances two_store !! 2%positive = Some (mkCoord 4%positive 4%positive) /\
  frame_lists two_store !! 4%positive = Some [2%positive] /\
  _axes_order <$> frame_objects two_store !! 2%positive = Some [0] /\
  _axes_order <$> frame_objects (composed two_store).2 !! 2%positive
    = Some [1] /\
  length <$> model_lists two_store !! 2%positive = Some 1%nat /\
  length <$> model_lists (composed two_store).2 !! 2%positive = Some 2%nat.
Proof. repeat split; vm_compute; reflexivity. Qed.

Lemma composition_reindexes_operand_frames_witness :
  exists (new_lutc : ref) (s' : store table unit_name) (n : LookupTableCoord),
    LookupTableCoord__and__ 1%positive (Instance 2%positive) two_store
      = (Ok new_lutc, s') /\
    instances two_store !! new_lutc = None /\
    instances s' !! new_lutc = Some n /\
    model_lists s' !! delayed_models n
      = Some ([mkDelayed (Components [pixels5]) (ModelFromQuantity true) true]
              ++ [mkDelayed (Components [metres3]) (ModelFromQuantity true)
                    true]) /\
    frame_lists s' !! frames n = Some ([1%positive] ++ [2%positive]) /\
    instances s' !! 2%positive = Some (mkCoord 4%positive 4%positive) /\
    model_lists s' !! 4%positive
      = Some [mkDelayed (Components [metres3]) (ModelFromQuantity true) true] /\
    frame_lists s' !! 4%positive = Some [2%positive] /\
    forall (i : nat) (f : ref),
      ([1%positive] ++ [2%positive]) !! i = Some f ->
      (forall j : nat,
         (i < j)%nat -> ([1%positive] ++ [2%positive]) !! j <> Some f) ->
      exists fr : Frame unit_name,
        frame_objects two_store !! f = Some fr /\
        frame_objects s' !! f =
          Some (set_axes_order fr
                  (axis_range
                     (total_axes (frame_objects two_store)
                        (take i ([1%positive] ++ [2%positive])))
                     (total_axes (frame_objects two_store)
                        (take (S i) ([1%positive] ++ [2%positive]))))).
Proof.
  apply (composition_reindexes_operand_frames table unit_name two_store
           1%positive 2%positive (mkCoord 2%positive 2%positive)
           (mkCoord 4%positive 4%positive)
           [mkDelayed (Components [pixels5]) (ModelFromQuantity true) true]
           [mkDelayed (Components [metres3]) (ModelFromQuantity true) true]
           [1%positive] [2%positive]).
  - vm_compute. reflexivity.
  - vm_compute. reflexivity.
  - vm_compute. reflexivity.
  - vm_compute. reflexivity.
  - vm_compute. reflexivity.
  - vm_compute. reflexivity.
  - discriminate.
  - discriminate.
  - repeat constructor; eexists; vm_compute; reflexivity.
Defined.

(** A coordinate composed with a slice of itself: the two hold the same
    frame, which the composite lists twice and which ends with the range
    of its second position. *)
Example composition_with_a_shared_frame :
  instances sliced_store !! 1%positive = Some (mkCoord 2%positive 2%positive) /\
  instances sliced_store !! 2%positive = Some (mkCoord 4%positive 4%positive) /\
  frame_lists sliced_store !! 2%positive = Some [1%positive] /\
  frame_lists sliced_store !! 4%positive = Some [1%positive] /\
  frame_lists
    (LookupTableCoord__and__ 1%positive (Instance 2%positive) sliced_store).2
    !! 2%positive = Some [1%positive; 1%positive] /\
  _axes_order <$>
    frame_objects
      (LookupTableCoord__and__ 1%positive (Instance 2%positive)
         sliced_store).2 !! 1%positive = Some [1].
Proof. repeat split; vm_compute; reflexivity. Qed.

(** ** Quantities whose units differ *)

Section Units.

Context {A U : Type} `{Tables A U}.
Variable quantity_unit : list A -> result U.



End Units.




(** * Further properties *)

(** ** The result monad over lists *)

Lemma mapM_Ok_map {X Y} (f : X -> result Y) (g : X -> Y) (l : list X) :
  (forall x, x ∈ l -> f x = Ok (g x)) -> mapM f l = Ok (map g l).
Proof.
  induction l as [|x l IH]; intros Hf; [reflexivity|].
  cbn [mapM map]. rewrite (Hf x) by (apply elem_of_cons; left; reflexivity).
  cbn [mbind result_bind]. rewrite IH.
  - reflexivity.
  - intros y Hy. apply Hf. apply elem_of_cons. right. exact Hy.
Qed.

Lemma mapM_Ok_length {X Y} (f : X -> result Y) (l : list X) (r : list Y) :
  mapM f l = Ok r -> length r = length l.
Proof.
  revert r. induction l as [|x l IH]; intros r Hr.
  - injection Hr as <-. reflexivity.
  - cbn [mapM] in Hr. destruct (f x) as [y|e]; [|discriminate].
    cbn [mbind result_bind] in Hr.
    destruct (mapM f l) as [k|e]; [|discriminate].
    injection Hr as <-. cbn. f_equal. apply IH. reflexivity.
Qed.

(** ** Axis priority *)

Lemma list_index_lookup (l : list string) (i : nat) (t : string) :
  NoDup l -> l !! i = Some t -> list_index t l = Ok (Z.of_nat i).
Proof.
  revert i. induction l as [|x l IH]; intros i Hnd Hi.
  - rewrite lookup_nil in Hi. discriminate.
  - apply NoDup_cons in Hnd as [Hx Hnd]. destruct i as [|i]; cbn in Hi.
    + injection Hi as <-. cbn. rewrite String.eqb_refl. reflexivity.
    + cbn [list_index].
      destruct (String.eqb_spec t x) as [->|_].
      * exfalso. apply Hx. eapply list_elem_of_lookup_2. exact Hi.
      * rewrite (IH i Hnd Hi). cbn [mbind result_bind]. f_equal. lia.
Qed.

Lemma list_index_elem (l : list string) (t : string) :
  t ∈ l -> exists i : Z, list_index t l = Ok i.
Proof.
  induction l as [|x l IH]; intros Ht.
  - apply elem_of_nil in Ht. contradiction.
  - cbn [list_index]. destruct (String.eqb_spec t x) as [->|Hne].
    + eexists. reflexivity.
    + apply elem_of_cons in Ht as [Ht|Ht]; [contradiction|].
      destruct (IH Ht) as (i & ->). eexists. reflexivity.
Qed.

Lemma order_key_elem (axtypes : list string) (t : string) :
  t ∈ axtypes -> exists k : Z, order_key axtypes t = Ok (k, t).
Proof.
  intros Ht. unfold order_key.
  destruct (_ || _); [eexists; reflexivity|].
  destruct (String.eqb t "WAVE"); [eexists; reflexivity|].
  destruct (String.eqb t "HPLT-TAN"); [eexists; reflexivity|].
  destruct (list_index_elem _ _ Ht) as (i & ->). eexists. reflexivity.
Qed.

Lemma order_keys_snd (axtypes l : list string) :
  (forall t, t ∈ l -> t ∈ axtypes) ->
  exists order : list (Z * string),
    mapM (order_key axtypes) l = Ok order /\ order.*2 = l.
Proof.
  induction l as [|t l IH]; intros Hl.
  - exists []. split; reflexivity.
  - destruct (order_key_elem axtypes t) as (k & Hk).
    { apply Hl. apply elem_of_cons. left. reflexivity. }
    destruct IH as (order & Horder & Hsnd).
    { intros u Hu. apply Hl. apply elem_of_cons. right. exact Hu. }
    exists ((k, t) :: order). split.
    + cbn [mapM]. rewrite Hk. cbn [mbind result_bind]. rewrite Horder.
      reflexivity.
    + cbn. f_equal. exact Hsnd.
Qed.

Lemma insert_key_perm (x : Z * string) (l : list (Z * string)) :
  insert_key x l ≡ₚ x :: l.
Proof.
  induction l as [|y l IH]; [reflexivity|].
  cbn [insert_key]. destruct (key_lt x y); [reflexivity|].
  rewrite IH. apply Permutation_swap.
Qed.

Lemma sort_keys_perm (l : list (Z * string)) : sort_keys l ≡ₚ l.
Proof.
  unfold sort_keys.
  assert (Hgen : forall acc, foldl (fun sorted x => insert_key x sorted) acc l
                             ≡ₚ l ++ acc).
  { induction l as [|x l IH]; intros acc; [reflexivity|].
    cbn [foldl]. rewrite IH, insert_key_perm.
    cbn [app]. symmetry. apply Permutation_middle. }
  rewrite Hgen, app_nil_r. reflexivity.
Qed.

Lemma key_lt_fst (x y : Z * string) :
  (key_lt x y = true -> x.1 <= y.1) /\ (key_lt x y = false -> y.1 <= x.1).
Proof.
  unfold key_lt. split; intros Hk.
  - apply orb_true_iff in Hk as [Hk|Hk].
    + apply Z.ltb_lt in Hk. lia.
    + apply andb_true_iff in Hk as [Hk _]. apply Z.eqb_eq in Hk. lia.
  - apply orb_false_iff in Hk as [Hk _]. apply Z.ltb_ge in Hk. lia.
Qed.

Lemma insert_key_sorted (x : Z * string) (l : list (Z * string)) :
  StronglySorted (fun a b => a.1 <= b.1) l ->
  StronglySorted (fun a b => a.1 <= b.1) (insert_key x l).
Proof.
  induction l as [|y l IH]; intros Hs.
  - repeat constructor.
  - apply StronglySorted_inv in Hs as [Hs Hy]. cbn [insert_key].
    destruct (key_lt x y) eqn:Hk.
    + apply key_lt_fst in Hk.
      constructor; [constructor; assumption|].
      constructor; [exact Hk|].
      eapply Forall_impl; [exact Hy|]. cbn. intros z Hz. lia.
    + apply key_lt_fst in Hk.
      constructor; [apply IH; exact Hs|].
      rewrite insert_key_perm. constructor; assumption.
Qed.

Lemma sort_keys_sorted (l : list (Z * string)) :
  StronglySorted (fun a b => a.1 <= b.1) (sort_keys l).
Proof.
  unfold sort_keys.
  assert (Hgen : forall acc,
            StronglySorted (fun a b => a.1 <= b.1) acc ->
            StronglySorted (fun a b => a.1 <= b.1)
              (foldl (fun sorted x => insert_key x sorted) acc l)).
  { induction l as [|x l IH]; intros acc Hacc; [exact Hacc|].
    cbn [foldl]. apply IH. apply insert_key_sorted. exact Hacc. }
  apply Hgen. constructor.
Qed.

Lemma rank_of_key (axtypes : list string) (t : string) (k : Z) :
  order_key axtypes t = Ok (k, t) -> rank axtypes t = k.
Proof. unfold rank. intros ->. reflexivity. Qed.

Lemma order_keys_rank (axtypes l : list string) (order : list (Z * string)) :
  mapM (order_key axtypes) l = Ok order ->
  Forall (fun p => rank axtypes p.2 = p.1) order.
Proof.
  revert order. induction l as [|t l IH]; intros order Ho.
  - injection Ho as <-. constructor.
  - cbn [mapM] in Ho. destruct (order_key axtypes t) as [[k u]|e] eqn:Hk;
      [|discriminate].
    cbn [mbind result_bind] in Ho.
    destruct (mapM _ l) as [rest|e]; [|discriminate].
    injection Ho as <-. constructor; [|apply IH; reflexivity].
    cbn. unfold rank.
    assert (u = t) as ->.
    { unfold order_key in Hk.
      repeat match type of Hk with
             | (if ?c then _ else _) = _ => destruct c
             end; try (injection Hk as _ <-; reflexivity).
      destruct (list_index t axtypes); [|discriminate].
      injection Hk as _ <-. reflexivity. }
    rewrite Hk. reflexivity.
Qed.

(** What [select_order] computes: the keys in sorted order, each
    answered with the first position of its CTYPE. *)
Lemma select_order_run (axtypes : list string) :
  exists order : list (Z * string),
    mapM (order_key axtypes) axtypes = Ok order /\
    order.*2 = axtypes /\
    select_order axtypes
    = Ok (map (position axtypes) (sort_keys order).*2).
Proof.
  destruct (order_keys_snd axtypes axtypes) as (order & Horder & Hsnd);
    [auto|].
  exists order. split; [exact Horder|]. split; [exact Hsnd|].
  unfold select_order. rewrite Horder. cbn [mbind result_bind].
  rewrite (mapM_Ok_map _ (fun p => position axtypes p.2)).
  - f_equal. rewrite <- list_fmap_compose. reflexivity.
  - intros p Hp. rewrite sort_keys_perm in Hp.
    assert (Hin : p.2 ∈ axtypes).
    { rewrite <- Hsnd. apply list_elem_of_fmap. exists p. auto. }
    unfold position. destruct (list_index_elem _ _ Hin) as (i & ->).
    reflexivity.
Qed.

(** X2: [select_order] always returns: the CTYPEs are visited in an order
    sorted by rank (TIME and UTC, then WAVE, then HPLT-TAN, then the others
    by first position), and each is answered with its first position. *)
Theorem select_order_sorted_by_rank (axtypes : list string) :
  exists types : list string,
    select_order axtypes = Ok (map (position axtypes) types) /\
    types ≡ₚ axtypes /\
    StronglySorted Z.le (map (rank axtypes) types).
Proof.
  destruct (select_order_run axtypes) as (order & Horder & Hsnd & Hrun).
  exists (sort_keys order).*2. split; [exact Hrun|]. split.
  - rewrite sort_keys_perm. rewrite Hsnd. reflexivity.
  - pose proof (sort_keys_sorted order) as Hs.
    pose proof (order_keys_rank _ _ _ Horder) as Hr.
    rewrite <- sort_keys_perm in Hr. clear Hrun.
    induction Hs as [|p l Hs IH Hp]; [constructor|].
    apply Forall_cons in Hr as [Hpr Hr].
    cbn. constructor; [apply IH; exact Hr|].
    apply Forall_forall. intros k Hk.
    change (k ∈ rank axtypes <$> l.*2) in Hk.
    apply list_elem_of_fmap in Hk as (t & -> & Ht).
    apply list_elem_of_fmap in Ht as (q & -> & Hq).
    rewrite Forall_forall in Hp, Hr.
    rewrite Hpr, (Hr q Hq). apply Hp. exact Hq.
Qed.

Lemma positions_NoDup (l : list string) :
  NoDup l -> map (position l) l = map Z.of_nat (seq 0 (length l)).
Proof.
  intros Hnd. apply list_eq. intros i.
  change (map (position l) l) with (position l <$> l).
  change (map Z.of_nat (seq 0 (length l))) with (Z.of_nat <$> seq 0 (length l)).
  rewrite !list_lookup_fmap.
  destruct (l !! i) as [t|] eqn:Hi.
  - rewrite (lookup_seq_lt _ _ _ (lookup_lt_Some _ _ _ Hi)). cbn.
    unfold position. rewrite (list_index_lookup _ _ _ Hnd Hi). reflexivity.
  - rewrite lookup_seq_ge by (apply lookup_ge_None; exact Hi). reflexivity.
Qed.

(** X1: On CTYPEs without repetition [select_order] returns a permutation
    of the positions [0 .. n-1]. *)
Theorem select_order_permutation (axtypes : list string) :
  NoDup axtypes ->
  exists r : list Z,
    select_order axtypes = Ok r /\
    r ≡ₚ map Z.of_nat (seq 0 (length axtypes)).
Proof.
  intros Hnd.
  destruct (select_order_run axtypes) as (order & _ & Hsnd & Hrun).
  eexists. split; [exact Hrun|].
  rewrite <- (positions_NoDup _ Hnd).
  change (position axtypes <$> (sort_keys order).*2
          ≡ₚ position axtypes <$> axtypes).
  rewrite sort_keys_perm, Hsnd. reflexivity.
Qed.

Lemma select_order_permutation_witness :
  NoDup ["HPLN-TAN"; "TIME"; "WAVE"] /\
  exists r : list Z,
    select_order ["HPLN-TAN"; "TIME"; "WAVE"] = Ok r /\
    r ≡ₚ map Z.of_nat (seq 0 3).
Proof.
  assert (Hnd : NoDup ["HPLN-TAN"; "TIME"; "WAVE"]).
  { apply (bool_decide_unpack (NoDup ["HPLN-TAN"; "TIME"; "WAVE"])).
    vm_compute. exact I. }
  split; [exact Hnd|].
  exact (select_order_permutation ["HPLN-TAN"; "TIME"; "WAVE"] Hnd).
Defined.

(** The example of the docstring. *)
Example select_order_docstring :
  select_order ["HPLN-TAN"; "TIME"; "WAVE"] = Ok [1; 2; 0].
Proof. reflexivity. Qed.

(** ** Resolving one virtual index *)

(** Every position holding a value at most [x] is reported. *)
Lemma where_le_from_complete (a : list Z) (k x : Z) (i : nat) (y : Z) :
  a !! i = Some y -> y <= x -> k + Z.of_nat i ∈ where_le_from k a x.
Proof.
  revert k i. induction a as [|z a IH]; intros k i Hi Hy.
  - rewrite lookup_nil in Hi. discriminate.
  - cbn [where_le_from]. destruct i as [|i]; cbn in Hi.
    + injection Hi as ->.
      assert (E : (y <=? x) = true) by (apply Z.leb_le; exact Hy).
      rewrite E. replace (k + Z.of_nat 0) with k by lia.
      apply elem_of_cons. left. reflexivity.
    + replace (k + Z.of_nat (S i)) with (k + 1 + Z.of_nat i) by lia.
      destruct (z <=? x); [apply elem_of_cons; right|]; apply IH; assumption.
Qed.

(** The reported positions increase. *)
Lemma where_le_from_increasing (a : list Z) (k x : Z) :
  StronglySorted Z.lt (where_le_from k a x) /\
  Forall (fun j => k <= j) (where_le_from k a x).
Proof.
  revert k. induction a as [|z a IH]; intros k.
  - split; constructor.
  - cbn [where_le_from]. destruct (IH (k + 1)) as [Hs Hf].
    assert (Hf' : Forall (fun j => k < j) (where_le_from (k + 1) a x)).
    { eapply Forall_impl; [exact Hf|]. cbn. intros j Hj. lia. }
    destruct (z <=? x).
    + split; constructor; try assumption; try lia.
      eapply Forall_impl; [exact Hf'|]. cbn. intros j Hj. lia.
    + split; [exact Hs|].
      eapply Forall_impl; [exact Hf'|]. cbn. intros j Hj. lia.
Qed.

Lemma strongly_sorted_last (w : list Z) (k j : Z) :
  StronglySorted Z.lt (w ++ [k]) -> j ∈ w ++ [k] -> j <= k.
Proof.
  induction w as [|z w IH]; intros Hs Hj.
  - apply elem_of_cons in Hj as [->|Hj]; [lia|].
    apply elem_of_nil in Hj. contradiction.
  - cbn [app] in *. apply StronglySorted_inv in Hs as [Hs Hz].
    apply elem_of_cons in Hj as [->|Hj]; [|apply IH; assumption].
    rewrite Forall_forall in Hz.
    assert (z < k); [|lia].
    apply Hz. apply elem_of_app. right. apply elem_of_cons. left. reflexivity.
Qed.

(** What index resolution returns inside the declared range: a cube
    position, an offset inside that cube, and the extent before it. *)
Lemma index_resolution_inside (extents : list Z) (v : Z) :
  extents <> [] ->
  0 <= v < extent_at extents (Z.of_nat (length extents) - 1) ->
  exists s c : Z,
    _convert_cube_like_index_to_sequence_index v extents
      = Ok (SequenceIndex.mk s c) /\
    0 <= s < Z.of_nat (length extents) /\
    0 <= c /\
    v < extent_at extents s /\
    v = (if s =? 0 then 0 else extent_at extents (s - 1)) + c.
Proof.
  intros Hne Hv.
  destruct (exists_last Hne) as (l & x & ->).
  rewrite extent_at_last in Hv.
  unfold _convert_cube_like_index_to_sequence_index.
  destruct (getitem_first_snoc l x) as (first & Hfirst & _).
  rewrite Hfirst. cbn [mbind result_bind].
  assert (Hfirst' : extent_at (l ++ [x]) 0 = first).
  { apply getitem_inv in Hfirst as (k & Hk & Hk0). cbn in Hk0.
    unfold extent_at. replace (Z.to_nat 0) with k by lia. rewrite Hk.
    reflexivity. }
  destruct (v <? first) eqn:Hlow.
  - apply Z.ltb_lt in Hlow. exists 0, v.
    split; [reflexivity|]. rewrite length_app. cbn [length].
    rewrite Hfirst'. cbn. repeat split; lia.
  - apply Z.ltb_ge in Hlow.
    destruct l as [|z l].
    { injection Hfirst as <-. lia. }
    injection Hfirst as <-.
    assert (Hw : where_le_from 0 (z :: l) v <> []).
    { simpl. assert (E' : (z <=? v) = true) by (apply Z.leb_le; lia).
      rewrite E'. discriminate. }
    remember (z :: l) as l' eqn:Hl'. clear Hl' Hlow Hfirst' z l.
    unfold np_where_le. rewrite where_le_from_app.
    cbn [where_le_from].
    assert (E : (x <=? v) = false) by (apply Z.leb_gt; lia).
    rewrite E, app_nil_r.
    destruct (exists_last Hw) as (w & k & Hk).
    rewrite Hk, !getitem_last. cbn [mbind result_bind].
    assert (Hin : k ∈ where_le_from 0 l' v).
    { rewrite Hk. apply elem_of_app. right. apply elem_of_cons. left.
      reflexivity. }
    pose proof Hin as Hin'.
    apply where_le_from_elem in Hin' as (i & y & -> & Hi & Hy).
    pose proof (lookup_lt_Some _ _ _ Hi) as Hlen.
    assert (E2 : (x - 1 <? v) = false) by (apply Z.ltb_ge; lia).
    rewrite E2.
    replace (0 + Z.of_nat i) with (Z.of_nat i) in * by lia.
    assert (Hget : getitem (l' ++ [x]) (Z.of_nat i) = Ok y).
    { apply getitem_nonneg. rewrite lookup_app_l by exact Hlen. exact Hi. }
    rewrite Hget. cbn [mbind result_bind].
    assert (E3 : (Z.of_nat i <? Z.of_nat (length (l' ++ [x])) - 1) = true).
    { apply Z.ltb_lt. rewrite length_app. simpl length. lia. }
    rewrite E3. exists (Z.of_nat i + 1), (v - y).
    split; [reflexivity|].
    rewrite length_app. cbn [length].
    assert (E4 : (Z.of_nat i + 1 =? 0) = false) by (apply Z.eqb_neq; lia).
    rewrite E4.
    assert (Hprev : extent_at (l' ++ [x]) (Z.of_nat i + 1 - 1) = y).
    { unfold extent_at.
      replace (Z.to_nat (Z.of_nat i + 1 - 1)) with i by lia.
      rewrite lookup_app_l by exact Hlen. rewrite Hi. reflexivity. }
    rewrite Hprev.
    split; [lia|]. split; [lia|]. split; [|lia].
    (* the extent after position [i] exceeds [v]: [i] is the last
       position at most [v] *)
    unfold extent_at. replace (Z.to_nat (Z.of_nat i + 1)) with (S i) by lia.
    destruct ((l' ++ [x]) !! S i) as [y'|] eqn:Hnext.
    + cbn [default]. destruct (Z.lt_ge_cases v y') as [Hlt|Hge]; [exact Hlt|].
      exfalso.
      destruct (decide (S i < length l')%nat) as [Hin_l|Hlast].
      * rewrite lookup_app_l in Hnext by exact Hin_l.
        pose proof (where_le_from_complete l' 0 v (S i) y' Hnext Hge) as Hmem.
        destruct (where_le_from_increasing l' 0 v) as [Hs _].
        rewrite Hk in Hs, Hmem.
        pose proof (strongly_sorted_last _ _ _ Hs Hmem). lia.
      * rewrite lookup_app_r in Hnext by lia.
        replace (S i - length l')%nat with 0%nat in Hnext by lia.
        injection Hnext as <-. lia.
    + apply lookup_ge_None in Hnext. rewrite length_app in Hnext.
      cbn [length] in Hnext. lia.
Qed.

(** X3: Inside the declared range the resolved offset lies inside the
    resolved cube: it is non-negative and smaller than that cube's length
    along the common axis. *)
Theorem resolved_offset_inside_cube (extents : list Z) (virtual_index : Z) :
  extents <> [] ->
  0 <= virtual_index
    < extent_at extents (Z.of_nat (length extents) - 1) ->
  exists s c : Z,
    _convert_cube_like_index_to_sequence_index virtual_index extents
      = Ok (SequenceIndex.mk s c) /\
    0 <= s < Z.of_nat (length extents) /\
    0 <= c < extent_at extents s
             - (if s =? 0 then 0 else extent_at extents (s - 1)).
Proof.
  intros Hne Hv.
  destruct (index_resolution_inside extents virtual_index Hne Hv)
    as (s & c & Hrun & Hs & Hc & Hnext & Hsum).
  exists s, c. split; [exact Hrun|]. split; [exact Hs|]. lia.
Qed.

Lemma resolved_offset_inside_cube_witness :
  [3; 7; 10] <> [] /\
  0 <= 8 < extent_at [3; 7; 10] 2 /\
  exists s c : Z,
    _convert_cube_like_index_to_sequence_index 8 [3; 7; 10]
      = Ok (SequenceIndex.mk s c) /\
    0 <= s < 3 /\
    0 <= c < extent_at [3; 7; 10] s
             - (if s =? 0 then 0 else extent_at [3; 7; 10] (s - 1)).
Proof.
  split; [discriminate|]. split; [split; [discriminate | reflexivity]|].
  apply (resolved_offset_inside_cube [3; 7; 10] 8);
    [discriminate | split; [discriminate | reflexivity]].
Defined.

(** X4: For every integer, in range or not, resolution against a non-empty
    extents sequence returns, and the cube it names exists. *)
Theorem index_resolution_names_a_cube (extents : list Z) (virtual_index : Z) :
  extents <> [] ->
  exists si : SequenceIndex.t,
    _convert_cube_like_index_to_sequence_index virtual_index extents = Ok si /\
    0 <= SequenceIndex.sequence_index si < Z.of_nat (length extents).
Proof.
  intros Hne.
  destruct (exists_last Hne) as (l & x & ->).
  unfold _convert_cube_like_index_to_sequence_index.
  destruct (getitem_first_snoc l x) as (first & Hfirst & _).
  rewrite Hfirst. cbn [mbind result_bind].
  assert (Hn : 0 < Z.of_nat (length (l ++ [x])))
    by (rewrite length_app; cbn [length]; lia).
  destruct (virtual_index <? first) eqn:Hlow.
  - eexists. split; [reflexivity|]. cbn. lia.
  - apply Z.ltb_ge in Hlow.
    assert (Hw : np_where_le (l ++ [x]) virtual_index <> []).
    { apply getitem_inv in Hfirst as (k & Hk & Hk0). cbn in Hk0.
      pose proof (where_le_from_complete _ 0 _ _ _ Hk Hlow) as Hmem.
      unfold np_where_le. intros Hnil. rewrite Hnil in Hmem.
      apply elem_of_nil in Hmem. exact Hmem. }
    destruct (exists_last Hw) as (w & k & Hk).
    rewrite Hk, !getitem_last. cbn [mbind result_bind].
    assert (Hin : k ∈ where_le_from 0 (l ++ [x]) virtual_index).
    { unfold np_where_le in Hk. rewrite Hk. apply elem_of_app. right.
      apply elem_of_cons. left. reflexivity. }
    apply where_le_from_elem in Hin as (i & y & -> & Hi & Hy).
    pose proof (lookup_lt_Some _ _ _ Hi) as Hlen.
    replace (0 + Z.of_nat i) with (Z.of_nat i) by lia.
    assert (Hcube : exists c : Z,
      (if x - 1 <? virtual_index
       then if (length (l ++ [x]) =? 1)%nat then Ok (x - 1)
            else before_last ← getitem (l ++ [x]) (-2);
                 Ok (x - before_last - 1)
       else at_index ← getitem (l ++ [x]) (Z.of_nat i);
            Ok (virtual_index - at_index)) = Ok c).
    { destruct (x - 1 <? virtual_index).
      - destruct (length (l ++ [x]) =? 1)%nat eqn:Hone; [eauto|].
        destruct l as [|y' l _] using rev_ind; [discriminate|].
        rewrite <- app_assoc. cbn [app]. rewrite getitem_before_last.
        eexists. reflexivity.
      - rewrite (getitem_nonneg _ _ _ Hi). eexists. reflexivity. }
    destruct Hcube as (c & ->). cbn [mbind result_bind].
    eexists. split; [reflexivity|].
    cbn [SequenceIndex.sequence_index].
    destruct (Z.ltb_spec (Z.of_nat i) (Z.of_nat (length (l ++ [x])) - 1));
      lia.
Qed.

Lemma index_resolution_names_a_cube_witness :
  [3; 7; 10] <> [] /\
  exists si : SequenceIndex.t,
    _convert_cube_like_index_to_sequence_index (-4) [3; 7; 10] = Ok si /\
    0 <= SequenceIndex.sequence_index si < 3.
Proof.
  split; [discriminate|].
  apply (index_resolution_names_a_cube [3; 7; 10] (-4)). discriminate.
Defined.

(** ** Resolving a slice of virtual indices *)

Lemma length_range3 (lo hi st : Z) :
  length (range3 lo hi st) = Z.to_nat (range_len lo hi st).
Proof. unfold range3. rewrite length_map, length_seq. reflexivity. Qed.

Lemma range3_elem (lo hi st x : Z) :
  x ∈ range3 lo hi st ->
  exists k : Z, 0 <= k < range_len lo hi st /\ x = lo + k * st.
Proof.
  unfold range3. intros Hx.
  change (x ∈ (fun k => lo + Z.of_nat k * st)
              <$> seq 0 (Z.to_nat (range_len lo hi st))) in Hx.
  apply list_elem_of_fmap in Hx as (k & -> & Hk).
  apply elem_of_seq in Hk. exists (Z.of_nat k). split; [lia | reflexivity].
Qed.

(** The indices a slice denotes on a sequence of length [len] are
    positions of that sequence. *)
Lemma slice_indices_in_range (s : slice) (len b e st x : Z) :
  0 <= len ->
  slice_indices s len = Ok (b, e, st) ->
  x ∈ range3 b e st -> 0 <= x < len.
Proof.
  intros Hlen Hs Hx. unfold slice_indices in Hs. cbv zeta in Hs.
  destruct (default 1 (step s) =? 0) eqn:Hz; [discriminate|].
  apply Z.eqb_neq in Hz. injection Hs as Hb He Hst.
  rewrite Hst in *. clear Hst.
  apply range3_elem in Hx as (k & Hk & ->).
  unfold range_len in Hk.
  destruct (Z.ltb_spec 0 st) as [Hpos|Hnpos].
  - assert (E : (st <? 0) = false) by (apply Z.ltb_ge; lia).
    rewrite E in *.
    assert (Hb0 : 0 <= b).
    { subst b. destruct (start s) as [v|]; [|lia].
      destruct (Z.ltb_spec v 0); lia. }
    assert (He0 : e <= len).
    { subst e. destruct (stop s) as [v|]; [|lia].
      destruct (Z.ltb_spec v 0); lia. }
    destruct (Z.ltb_spec b e) as [Hbe|Hbe]; [|lia].
    pose proof (Z.mul_div_le (e - b - 1) st Hpos) as Hdiv.
    set (q := (e - b - 1) / st) in *.
    assert (Hkq : k * st <= q * st)
      by (apply Z.mul_le_mono_nonneg_r; lia).
    assert (0 <= k * st) by (apply Z.mul_nonneg_nonneg; lia).
    lia.
  - assert (Hneg : st < 0) by lia.
    assert (E : (st <? 0) = true) by (apply Z.ltb_lt; lia).
    rewrite E in *.
    assert (Hb0 : b <= len - 1).
    { subst b. destruct (start s) as [v|]; [|lia].
      destruct (Z.ltb_spec v 0); lia. }
    assert (He0 : -1 <= e).
    { subst e. destruct (stop s) as [v|]; [|lia].
      destruct (Z.ltb_spec v 0); lia. }
    destruct (Z.ltb_spec e b) as [Hbe|Hbe]; [|lia].
    assert (Hpos : 0 < - st) by lia.
    pose proof (Z.mul_div_le (b - e - 1) (- st) Hpos) as Hdiv.
    set (q := (b - e - 1) / (- st)) in *.
    assert (Hkq : k * (- st) <= q * (- st))
      by (apply Z.mul_le_mono_nonneg_r; lia).
    assert (0 <= k * (- st)) by (apply Z.mul_nonneg_nonneg; lia).
    replace (k * st) with (- (k * (- st))) by ring.
    lia.
Qed.

Lemma mapM_Forall2 {X Y} (f : X -> result Y) (P : X -> Y -> Prop)
    (l : list X) :
  (forall x, x ∈ l -> exists y, f x = Ok y /\ P x y) ->
  exists r : list Y, mapM f l = Ok r /\ Forall2 P l r.
Proof.
  induction l as [|x l IH]; intros Hf.
  - exists []. split; [reflexivity | constructor].
  - destruct (Hf x) as (y & Hy & Hp); [apply elem_of_cons; auto|].
    destruct IH as (r & Hr & Hall).
    { intros z Hz. apply Hf. apply elem_of_cons. auto. }
    exists (y :: r). split; [|constructor; assumption].
    cbn [mapM]. rewrite Hy. cbn [mbind result_bind]. rewrite Hr. reflexivity.
Qed.

Lemma virtual_index_of_inside (extents : list Z) (s c : Z) :
  0 <= s < Z.of_nat (length extents) ->
  virtual_index_of extents (SequenceIndex.mk s c)
  = Ok ((if s =? 0 then 0 else extent_at extents (s - 1)) + c).
Proof.
  intros Hs. unfold virtual_index_of.
  cbn [SequenceIndex.sequence_index SequenceIndex.common_axis_index].
  destruct (s =? 0) eqn:H0; [f_equal; lia|].
  apply Z.eqb_neq in H0.
  destruct (lookup_lt_is_Some_2 extents (Z.to_nat (s - 1))) as (y & Hy);
    [lia|].
  unfold extent_at. rewrite Hy. cbn [default].
  replace (s - 1) with (Z.of_nat (Z.to_nat (s - 1))) at 1 by lia.
  rewrite (getitem_nonneg _ _ _ Hy). reflexivity.
Qed.

(** X5: A cube-like slice with a non-zero step resolves, to one
    [SequenceIndex] per element of [np.arange(total)[slice]], and in order
    each stands for the element it was resolved from. *)
Theorem slice_resolution_round_trip (extents : list Z) (s : slice) :
  extents <> [] ->
  step s <> Some 0 ->
  exists (b e st : Z) (sis : list SequenceIndex.t),
    slice_indices s
      (Z.max 0 (extent_at extents (Z.of_nat (length extents) - 1)))
      = Ok (b, e, st) /\
    _convert_cube_like_slice_to_sequence_indices s extents = Ok sis /\
    length sis = Z.to_nat (range_len b e st) /\
    mapM (virtual_index_of extents) sis = Ok (range3 b e st).
Proof.
  intros Hne Hstep.
  set (total := extent_at extents (Z.of_nat (length extents) - 1)).
  assert (Hlast : getitem extents (-1) = Ok total).
  { subst total. destruct (exists_last Hne) as (l & x & ->).
    rewrite getitem_last, extent_at_last. reflexivity. }
  destruct (slice_indices s (Z.max 0 total)) as [[[b e] st]|err] eqn:Hs.
  2:{ unfold slice_indices in Hs. cbv zeta in Hs.
      destruct (default 1 (step s) =? 0) eqn:Hz; [|discriminate].
      apply Z.eqb_eq in Hz. destruct (step s) as [c|]; cbn in Hz.
      - subst c. contradiction.
      - discriminate. }
  destruct (mapM_Forall2
              (fun v => _convert_cube_like_index_to_sequence_index v extents)
              (fun v si => virtual_index_of extents si = Ok v)
              (range3 b e st)) as (sis & Hsis & Hall).
  { intros v Hv.
    pose proof (slice_indices_in_range s (Z.max 0 total) b e st v
                  (Z.le_max_l 0 total) Hs Hv) as Hin.
    destruct (index_resolution_inside extents v Hne)
      as (q & c & Hrun & Hq & _ & _ & Hsum); [fold total; lia|].
    exists (SequenceIndex.mk q c). split; [exact Hrun|].
    rewrite virtual_index_of_inside by exact Hq. f_equal. lia. }
  exists b, e, st, sis. split; [reflexivity|]. split; [|split].
  - unfold _convert_cube_like_slice_to_sequence_indices, np_arange_slice.
    rewrite Hlast. cbn [mbind result_bind]. rewrite Hs.
    cbn [mbind result_bind]. exact Hsis.
  - rewrite <- length_range3. symmetry. eapply Forall2_length. exact Hall.
  - clear Hsis. induction Hall as [|v si vs sis' Hv Hall IH]; [reflexivity|].
    cbn [mapM]. rewrite Hv. cbn [mbind result_bind]. rewrite IH. reflexivity.
Qed.

Lemma slice_resolution_round_trip_witness :
  [3; 7; 10] <> [] /\
  step (mkSlice (Some 8) (Some 1) (Some (-3))) <> Some 0 /\
  exists (b e st : Z) (sis : list SequenceIndex.t),
    slice_indices (mkSlice (Some 8) (Some 1) (Some (-3)))
      (Z.max 0 (extent_at [3; 7; 10] 2)) = Ok (b, e, st) /\
    _convert_cube_like_slice_to_sequence_indices
      (mkSlice (Some 8) (Some 1) (Some (-3))) [3; 7; 10] = Ok sis /\
    length sis = Z.to_nat (range_len b e st) /\
    mapM (virtual_index_of [3; 7; 10]) sis = Ok (range3 b e st).
Proof.
  split; [discriminate|]. split; [discriminate|].
  apply (slice_resolution_round_trip [3; 7; 10]
           (mkSlice (Some 8) (Some 1) (Some (-3))));
    discriminate.
Defined.

(** ** Sequence-native slices, enumerated *)

(** X6: With both bounds given and no step, the cubes selected are
    [start, start + 1, ..., stop - 1], each paired with the same inner
    item; a negative bound is not counted from the end. *)
Theorem native_slice_enumerates_bounds (a b : Z) (cube_slice : item) :
  get_sequence_slices_from_slice_item (mkSlice (Some a) (Some b) None)
    cube_slice
  = Ok (map (fun k => SequenceSlice.mk (a + Z.of_nat k) cube_slice)
          (seq 0 (Z.to_nat (b - a)))).
Proof.
  unfold get_sequence_slices_from_slice_item. cbn [start stop step].
  cbn [py_range3 py_range2 mbind result_bind]. f_equal.
  unfold range3, range_len. cbn [Z.ltb Z.compare].
  rewrite map_map.
  assert (Hlen : (if a <? b then (b - a - 1) / 1 + 1 else 0)
                 = Z.max 0 (b - a)).
  { destruct (Z.ltb_spec a b); [rewrite Z.div_1_r|]; lia. }
  rewrite Hlen. replace (Z.to_nat (Z.max 0 (b - a))) with (Z.to_nat (b - a))
    by lia.
  apply map_ext. intros k. f_equal. lia.
Qed.

(** ** Cube-like items against a sequence *)

Section CubeLike.

Context {Cube : Type}.
Variable shape : Cube -> list Z.
Variable cube_getitem : Cube -> item -> result Cube.
Variable sequence_getitem : @NDCubeSequence Cube -> Z -> result Cube.

(** The cube-like resolution of an integer yields one slice or raises. *)
Lemma int_item_resolves_to_one (cs : NDCubeSequence) (i : Z)
    (sequence_slices : list SequenceSlice.t) :
  convert_cube_like_item_to_sequence_slices shape sequence_getitem cs
    (Elem (EInt i)) = Ok sequence_slices ->
  length sequence_slices = 1%nat.
Proof.
  unfold convert_cube_like_item_to_sequence_slices.
  destruct (mapM _ (data cs)) as [lengths|e]; [|discriminate].
  cbn [mbind result_bind].
  destruct (negb _); [discriminate|].
  destruct (_convert_cube_like_index_to_sequence_index _ _); [|discriminate].
  cbn [mbind result_bind]. intros [= <-]. reflexivity.
Qed.

Lemma single_slice_never_returns (cs : NDCubeSequence)
    (sequence_slices : list SequenceSlice.t) :
  length sequence_slices = 1%nat ->
  is_ok (slice_sequence cube_getitem cs sequence_slices) = false.
Proof.
  destruct sequence_slices as [|s0 [|s1 rest]]; try discriminate.
  intros _. unfold slice_sequence. cbn [length Nat.eqb].
  change (getitem [s0] 0) with (Ok s0). cbn [mbind result_bind].
  destruct (getitem (data cs) _); reflexivity.
Qed.

End CubeLike.

(** X9: [index_sequence_as_cube] returns only for a slice item: an integer
    resolves to a single slice, whose application raises, and a tuple does
    not resolve. *)
Theorem index_sequence_as_cube_returns_only_for_slices
    (Cube : Type) (shape : Cube -> list Z)
    (cube_getitem : Cube -> item -> result Cube)
    (sequence_getitem : @NDCubeSequence Cube -> Z -> result Cube)
    (cubesequence : @NDCubeSequence Cube) (it : item) :
  is_ok (index_sequence_as_cube shape cube_getitem sequence_getitem
           cubesequence it) = true ->
  exists s : slice, it = Elem (ESlice s).
Proof.
  unfold index_sequence_as_cube. intros Hok.
  destruct it as [[i|s|r]|t].
  - exfalso.
    destruct (convert_cube_like_item_to_sequence_slices _ _ _ _)
      as [sequence_slices|e] eqn:Hc; [|discriminate].
    cbn [mbind result_bind] in Hok.
    rewrite (single_slice_never_returns cube_getitem) in Hok;
      [discriminate|].
    eapply int_item_resolves_to_one. exact Hc.
  - exists s. reflexivity.
  - exfalso. unfold convert_cube_like_item_to_sequence_slices in Hok.
    destruct (mapM (M:=result) _ (data cubesequence)); discriminate.
  - exfalso.
    pose proof (tuple_item_never_resolves shape sequence_getitem
                  cubesequence t) as Hnever.
    destruct (convert_cube_like_item_to_sequence_slices _ _ _ _);
      discriminate.
Qed.

Lemma index_sequence_as_cube_returns_only_for_slices_witness :
  is_ok (index_sequence_as_cube ShapeCube.shape ShapeCube.cube_getitem
           ShapeCube.sequence_getitem (mkSeq [[2; 3; 4]; [5; 3; 4]] 0)
           (Elem (ESlice (mkSlice (Some 1) (Some 3) None)))) = true /\
  exists s : slice,
    Elem (ESlice (mkSlice (Some 1) (Some 3) None)) = Elem (ESlice s).
Proof.
  split; [reflexivity|].
  apply (index_sequence_as_cube_returns_only_for_slices (list Z)
           ShapeCube.shape ShapeCube.cube_getitem ShapeCube.sequence_getitem
           (mkSeq [[2; 3; 4]; [5; 3; 4]] 0)).
  reflexivity.
Defined.

(** X10: When [slice_sequence] returns, it was given a number of slices other
    than one, and it returns a sequence with one cube per slice and the
    common axis of the sequence it was given. *)
Theorem slice_sequence_returns_one_cube_per_slice
    (Cube : Type) (cube_getitem : Cube -> item -> result Cube)
    (cubesequence : @NDCubeSequence Cube)
    (sequence_slices : list SequenceSlice.t) (r : sliced) :
  slice_sequence cube_getitem cubesequence sequence_slices = Ok r ->
  length sequence_slices <> 1%nat /\
  exists s : NDCubeSequence,
    r = Sequence s /\
    length (data s) = length sequence_slices /\
    _common_axis s = _common_axis cubesequence.
Proof.
  intros Hrun.
  destruct (decide (length sequence_slices = 1%nat)) as [Hone|Hne].
  - pose proof (single_slice_never_returns cube_getitem cubesequence
                  _ Hone) as Hnever.
    rewrite Hrun in Hnever. discriminate.
  - split; [exact Hne|].
    rewrite (several_slices_give_sequence _ _ _ _ Hne) in Hrun.
    destruct (mapM _ sequence_slices) as [cubes|e] eqn:Hm; [|discriminate].
    injection Hrun as <-. eexists. split; [reflexivity|].
    split; [|reflexivity]. cbn [data].
    eapply mapM_Ok_length. exact Hm.
Qed.

Lemma slice_sequence_returns_one_cube_per_slice_witness :
  slice_sequence ShapeCube.cube_getitem (mkSeq [[2; 3; 4]; [5; 3; 4]] 0)
    [SequenceSlice.mk 0 (Elem (EInt 1)); SequenceSlice.mk 1 (Elem (EInt 0))]
  = Ok (Sequence (mkSeq [[3; 4]; [3; 4]] 0)) /\
  2%nat <> 1%nat /\
  exists s : NDCubeSequence,
    Sequence (mkSeq [[3; 4]; [3; 4]] 0) = Sequence s /\
    length (data s) = 2%nat /\
    _common_axis s = 0%nat.
Proof.
  split; [reflexivity|].
  apply (slice_sequence_returns_one_cube_per_slice (list Z)
           ShapeCube.cube_getitem (mkSeq [[2; 3; 4]; [5; 3; 4]] 0)
           [SequenceSlice.mk 0 (Elem (EInt 1));
            SequenceSlice.mk 1 (Elem (EInt 0))]).
  reflexivity.
Defined.

(** X7: A bare integer or slice is refused with [ValueError] unless the
    common axis is 0 (the extents being readable). *)
Theorem bare_item_needs_common_axis_0
    (Cube : Type) (shape : Cube -> list Z)
    (sequence_getitem : @NDCubeSequence Cube -> Z -> result Cube)
    (cubesequence : @NDCubeSequence Cube) :
  _common_axis cubesequence <> 0%nat ->
  is_ok (mapM (fun c => getitem (shape c)
                          (Z.of_nat (_common_axis cubesequence)))
           (data cubesequence)) = true ->
  (forall i : Z,
     convert_cube_like_item_to_sequence_slices shape sequence_getitem
       cubesequence (Elem (EInt i)) = Raise ValueError) /\
  (forall s : slice,
     convert_cube_like_item_to_sequence_slices shape sequence_getitem
       cubesequence (Elem (ESlice s)) = Raise ValueError).
Proof.
  intros Hax Hok. unfold convert_cube_like_item_to_sequence_slices.
  destruct (mapM _ (data cubesequence)) as [lengths|e]; [|discriminate].
  cbn [mbind result_bind].
  apply Nat.eqb_neq in Hax. rewrite Hax. cbn [negb].
  split; intros; reflexivity.
Qed.

Lemma bare_item_needs_common_axis_0_witness :
  1%nat <> 0%nat /\
  is_ok (mapM (fun c => getitem (ShapeCube.shape c) (Z.of_nat 1))
           [[2; 3; 4]; [2; 5; 4]]) = true /\
  (forall i : Z,
     convert_cube_like_item_to_sequence_slices ShapeCube.shape
       ShapeCube.sequence_getitem (mkSeq [[2; 3; 4]; [2; 5; 4]] 1)
       (Elem (EInt i)) = Raise ValueError) /\
  (forall s : slice,
     convert_cube_like_item_to_sequence_slices ShapeCube.shape
       ShapeCube.sequence_getitem (mkSeq [[2; 3; 4]; [2; 5; 4]] 1)
       (Elem (ESlice s)) = Raise ValueError).
Proof.
  split; [discriminate|]. split; [reflexivity|].
  apply (bare_item_needs_common_axis_0 (list Z) ShapeCube.shape
           ShapeCube.sequence_getitem (mkSeq [[2; 3; 4]; [2; 5; 4]] 1));
    [discriminate | reflexivity].
Defined.

(** ** Placing the offset into the cube item *)

Lemma length_pad_to (common_axis : nat) (t : list elem) :
  length (pad_to common_axis t) = Nat.max (length t) common_axis.
Proof. unfold pad_to. rewrite length_app, length_replicate. lia. Qed.

(** X8: Given the original tuple, the offset replaces the element at the
    common axis and every other element stays where it was; a tuple that
    does not reach the common axis raises [IndexError], the padding
    stopping one element short. *)
Theorem offset_replaces_common_axis_element
    (sequence_index : SequenceIndex.t) (common_axis : nat) (t : list elem) :
  t <> [] ->
  _convert_sequence_index_to_sequence_slice sequence_index common_axis
    (Some t)
  = if (common_axis <? length t)%nat
    then Ok (SequenceSlice.mk (SequenceIndex.sequence_index sequence_index)
               (Tuple (<[common_axis :=
                           EInt (SequenceIndex.common_axis_index
                                   sequence_index)]> t)))
    else Raise IndexError.
Proof.
  intros Hne. unfold _convert_sequence_index_to_sequence_slice.
  destruct t as [|e t]; [contradiction|].
  cbn [andb mbind result_bind]. unfold list_setitem.
  rewrite length_pad_to.
  destruct (Nat.ltb_spec common_axis (length (e :: t))) as [Hlt|Hge].
  - assert (E : (common_axis <? Nat.max (length (e :: t)) common_axis)%nat
                = true) by (apply Nat.ltb_lt; lia).
    rewrite E. cbn [mbind result_bind].
    unfold pad_to. replace (common_axis - length (e :: t))%nat with 0%nat
      by lia.
    cbn [replicate]. rewrite app_nil_r. reflexivity.
  - assert (E : (common_axis <? Nat.max (length (e :: t)) common_axis)%nat
                = false) by (apply Nat.ltb_ge; lia).
    rewrite E. reflexivity.
Qed.

Lemma offset_replaces_common_axis_element_witness :
  [ESlice slice_None; EInt 7; EInt 0] <> [] /\
  _convert_sequence_index_to_sequence_slice (SequenceIndex.mk 1 2) 1
    (Some [ESlice slice_None; EInt 7; EInt 0])
  = Ok (SequenceSlice.mk 1 (Tuple [ESlice slice_None; EInt 2; EInt 0])).
Proof.
  split; [discriminate|].
  apply (offset_replaces_common_axis_element (SequenceIndex.mk 1 2) 1
           [ESlice slice_None; EInt 7; EInt 0]).
  discriminate.
Defined.

(** ** Slicing delayed tables again *)

Section DelayedAgain.

Context {A U : Type} `{Tables A U}.

Lemma DelayedLookupTable__getitem__kind
    (d d' : DelayedLookupTable A) (it : item) :
  DelayedLookupTable__getitem__ d it = Ok d' ->
  match lookup_table d, lookup_table d' with
  | Single _, Single _ => True
  | Components l, Components l' => length l' = length l
  | _, _ => False
  end.
Proof.
  unfold DelayedLookupTable__getitem__.
  destruct (lookup_table d) as [a|l].
  - destruct (array_getitem a it); cbn; [|discriminate].
    intros [= <-]. exact I.
  - destruct (mesh d).
    + destruct it as [e|t]; [discriminate|].
      destruct (negb _) eqn:Hlen; [discriminate|].
      apply negb_false_iff, Nat.eqb_eq in Hlen.
      destruct (mapM _ (zip l t)) as [l'|e] eqn:Hm; cbn; [|discriminate].
      intros [= <-]. cbn. apply mapM_Ok_length in Hm.
      rewrite Hm, length_zip_with. lia.
    + destruct (mapM _ l) as [l'|e] eqn:Hm; cbn; [|discriminate].
      intros [= <-]. cbn. eapply mapM_Ok_length. exact Hm.
Qed.

(** X11: Slicing keeps the kind of the held table: one array stays one array,
    a tuple stays a tuple with as many components. *)
Theorem sliced_table_keeps_its_components
    (d d' : DelayedLookupTable A) (it : item) :
  DelayedLookupTable__getitem__ d it = Ok d' ->
  match lookup_table d, lookup_table d' with
  | Single _, Single _ => True
  | Components l, Components l' => length l' = length l
  | _, _ => False
  end.
Proof. apply DelayedLookupTable__getitem__kind. Qed.

(** X12: A sliced tuple of tables cannot be sliced again with a bare index or
    slice, whatever its [mesh] flag was: the slice carries [mesh = True],
    under which the item must be a tuple. *)
Theorem sliced_components_refuse_bare_item
    (d d' : DelayedLookupTable A) (l : list A) (it : item) (e : elem) :
  lookup_table d = Components l ->
  DelayedLookupTable__getitem__ d it = Ok d' ->
  DelayedLookupTable__getitem__ d' (Elem e) = Raise TypeError.
Proof.
  intros Hl Hd.
  pose proof (DelayedLookupTable__getitem__kind d d' it Hd) as Hkind.
  pose proof (DelayedLookupTable__getitem__fields d d' it Hd) as [_ Hmesh].
  rewrite Hl in Hkind.
  unfold DelayedLookupTable__getitem__.
  destruct (lookup_table d') as [a|l']; [contradiction|].
  rewrite Hmesh. reflexivity.
Qed.

End DelayedAgain.

Lemma sliced_table_keeps_its_components_witness :
  DelayedLookupTable__getitem__ aligned_pair
    (Elem (ESlice (mkSlice (Some 0) (Some 2) None)))
  = Ok (mkDelayed
          (Components [mkTable Quantity metre false [1; 2];
                       mkTable Quantity metre false [1; 2]])
          (ModelFromQuantity false) true) /\
  length [mkTable Quantity metre false [1; 2];
          mkTable Quantity metre false [1; 2]]
  = length [metres3; metres3].
Proof.
  split; [reflexivity|].
  apply (sliced_table_keeps_its_components aligned_pair
           (mkDelayed
              (Components [mkTable Quantity metre false [1; 2];
                           mkTable Quantity metre false [1; 2]])
              (ModelFromQuantity false) true)
           (Elem (ESlice (mkSlice (Some 0) (Some 2) None)))).
  reflexivity.
Defined.

Lemma sliced_components_refuse_bare_item_witness :
  lookup_table aligned_pair = Components [metres3; metres3] /\
  DelayedLookupTable__getitem__ aligned_pair
    (Elem (ESlice (mkSlice (Some 0) (Some 2) None)))
  = Ok (mkDelayed
          (Components [mkTable Quantity metre false [1; 2];
                       mkTable Quantity metre false [1; 2]])
          (ModelFromQuantity false) true) /\
  DelayedLookupTable__getitem__
    (mkDelayed
       (Components [mkTable Quantity metre false [1; 2];
                    mkTable Quantity metre false [1; 2]])
       (ModelFromQuantity false) true)
    (Elem (ESlice (mkSlice (Some 0) (Some 1) None)))
  = Raise TypeError.
Proof.
  split; [reflexivity|]. split; [reflexivity|].
  apply (sliced_components_refuse_bare_item aligned_pair _
           [metres3; metres3]
           (Elem (ESlice (mkSlice (Some 0) (Some 2) None))));
    reflexivity.
Defined.

(** ** Allocation in the store *)

Section Allocation.

Context {A U : Type}.

Lemma new_model_list_inv (l : list (DelayedLookupTable A)) (r : ref)
    (s s' : store A U) :
  new_model_list l s = (Ok r, s') ->
  model_lists s !! r = None /\
  s' = mkStore (<[r := l]> (model_lists s)) (frame_lists s)
         (frame_objects s) (instances s) (calls s).
Proof.
  unfold new_model_list. intros [= <- <-].
  split; [apply not_elem_of_dom, is_fresh | reflexivity].
Qed.

Lemma new_frame_list_inv (l : list ref) (r : ref) (s s' : store A U) :
  new_frame_list l s = (Ok r, s') ->
  frame_lists s !! r = None /\
  s' = mkStore (model_lists s) (<[r := l]> (frame_lists s))
         (frame_objects s) (instances s) (calls s).
Proof.
  unfold new_frame_list. intros [= <- <-].
  split; [apply not_elem_of_dom, is_fresh | reflexivity].
Qed.

Lemma new_frame_inv (f : Frame U) (r : ref) (s s' : store A U) :
  new_frame f s = (Ok r, s') ->
  frame_objects s !! r = None /\
  s' = mkStore (model_lists s) (frame_lists s)
         (<[r := f]> (frame_objects s)) (instances s) (calls s).
Proof.
  unfold new_frame. intros [= <- <-].
  split; [apply not_elem_of_dom, is_fresh | reflexivity].
Qed.

Lemma new_instance_inv (c : LookupTableCoord) (r : ref) (s s' : store A U) :
  new_instance c s = (Ok r, s') ->
  instances s !! r = None /\
  s' = mkStore (model_lists s) (frame_lists s) (frame_objects s)
         (<[r := c]> (instances s)) (calls s).
Proof.
  unfold new_instance. intros [= <- <-].
  split; [apply not_elem_of_dom, is_fresh | reflexivity].
Qed.

Lemma set_instance_inv (r : ref) (c : LookupTableCoord) (u : ())
    (s s' : store A U) :
  set_instance r c s = (Ok u, s') ->
  s' = mkStore (model_lists s) (frame_lists s) (frame_objects s)
         (<[r := c]> (instances s)) (calls s).
Proof. unfold set_instance. intros Hs. inversion Hs. reflexivity. Qed.

Lemma lift_Ok_inv {X} (r : result X) (x : X) (s s' : store A U) :
  lift r s = (Ok x, s') -> r = Ok x /\ s' = s.
Proof. unfold lift. intros [= -> ->]. split; reflexivity. Qed.

Lemma ret_Ok_inv {X} (x y : X) (s s' : store A U) :
  (mret x : M A U X) s = (Ok y, s') -> y = x /\ s' = s.
Proof. intros [= -> ->]. split; reflexivity. Qed.

Lemma insert_fresh_lookup {X} (m : gmap ref X) (r r' : ref) (x y : X) :
  m !! r = None -> m !! r' = Some y -> <[r := x]> m !! r' = Some y.
Proof.
  intros Hr Hr'. rewrite lookup_insert_ne; [exact Hr'|]. congruence.
Qed.

End Allocation.

(** Takes the next bind of a run that returned apart. *)
Ltac step_run H x s1 Hx :=
  apply bind_Ok_inv in H as (x & s1 & Hx & H).

Section Construction.

Context {A U : Type} `{Tables A U}.
Variable quantity_unit : list A -> result U.

Lemma length_axis_range (lo hi : nat) :
  length (axis_range lo hi) = (hi - lo)%nat.
Proof. unfold axis_range. rewrite length_map, length_seq. reflexivity. Qed.

(** Each builder gives its frame as many axes-order entries as axes. *)
Lemma from_quantity_frame_axes (lookup_tables : list A) (mesh : bool)
    (names physical_types : option (list string))
    (built : DelayedLookupTable A * Frame U) :
  _from_quantity quantity_unit lookup_tables mesh names physical_types
    = Ok built ->
  length (_axes_order built.2) = naxes built.2 /\
  naxes built.2 = length lookup_tables.
Proof.
  unfold _from_quantity.
  destruct (all_units_equivalent lookup_tables) as [[|]|e];
    cbn [mbind result_bind negb]; try discriminate.
  destruct (quantity_unit lookup_tables) as [u|e];
    cbn [mbind result_bind]; [|discriminate].
  intros [= <-]. cbn [snd]. unfold _generate_generic_frame.
  destruct (forallb (is_equivalent u_pix) _); cbn [_axes_order naxes];
    rewrite length_axis_range; lia.
Qed.

Lemma from_time_frame_axes (lookup_tables : list A) (mesh : bool)
    (names physical_types : option (list string))
    (built : DelayedLookupTable A * Frame U) :
  _from_time lookup_tables mesh names physical_types = Ok built ->
  length (_axes_order built.2) = naxes built.2.
Proof.
  unfold _from_time. destruct (1 <? length lookup_tables)%nat; [discriminate|].
  destruct (getitem lookup_tables 0) as [time|e];
    cbn [mbind result_bind]; [|discriminate].
  destruct (time_deltas time); cbn [mbind result_bind]; [|discriminate].
  destruct (array_getitem time _); cbn [mbind result_bind]; [|discriminate].
  intros [= <-]. reflexivity.
Qed.

Lemma from_skycoord_frame_axes (lookup_tables : list A) (mesh : bool)
    (names physical_types : option (list string))
    (built : DelayedLookupTable A * Frame U) :
  _from_skycoord lookup_tables mesh names physical_types = Ok built ->
  length (_axes_order built.2) = naxes built.2.
Proof.
  unfold _from_skycoord.
  destruct (1 <? length lookup_tables)%nat; [discriminate|].
  destruct (getitem lookup_tables 0) as [sc|e];
    cbn [mbind result_bind]; [|discriminate].
  intros [= <-]. reflexivity.
Qed.

(** The store a construction that returned has left. *)
Lemma construction_run
    (lookup_tables : list A) (mesh : bool)
    (names physical_types : option (list string))
    (s s' : store A U) (self : ref) :
  LookupTableCoord__init__ quantity_unit lookup_tables mesh names
    physical_types s = (Ok self, s') ->
  instances s !! self = None /\
  extends s s' /\
  calls s' = calls s /\
  exists (me : LookupTableCoord),
    instances s' !! self = Some me /\
    ((lookup_tables = [] /\
      model_lists s' !! delayed_models me = Some [] /\
      frame_lists s' !! frames me = Some []) \/
     (exists (lt0 : A) (built : DelayedLookupTable A * Frame U) (fobj : ref),
        head lookup_tables = Some lt0 /\
        match type_of lt0 with
        | Quantity =>
            _from_quantity quantity_unit lookup_tables mesh names
              physical_types
        | Time => _from_time lookup_tables mesh names physical_types
        | SkyCoord => _from_skycoord lookup_tables mesh names physical_types
        | OtherType _ => Raise KeyError
        end = Ok built /\
        model_lists s' !! delayed_models me = Some [built.1] /\
        frame_lists s' !! frames me = Some [fobj] /\
        frame_objects s' !! fobj = Some built.2)).
Proof.
  intros Hrun. unfold LookupTableCoord__init__ in Hrun.
  step_run Hrun dm s1 Hdm. apply new_model_list_inv in Hdm as [Hdm ->].
  step_run Hrun fr s2 Hfr. apply new_frame_list_inv in Hfr as [Hfr ->].
  step_run Hrun self' s3 Hself. apply new_instance_inv in Hself as [Hself ->].
  cbn [model_lists frame_lists frame_objects instances calls] in *.
  destruct lookup_tables as [|lt0 rest].
  - apply ret_Ok_inv in Hrun as [-> ->].
    split; [exact Hself|]. split; [|split].
    + repeat split; cbn [model_lists frame_lists frame_objects instances];
        intros r x Hr; try exact Hr;
        eapply insert_fresh_lookup; eassumption.
    + reflexivity.
    + exists (mkCoord dm fr).
      cbn [model_lists frame_lists instances delayed_models frames].
      rewrite !lookup_insert_eq. split; [reflexivity|]. left.
      repeat split.
  - destruct (negb (forallb _ (lt0 :: rest))); [discriminate|].
    destruct (negb (forallb _ (lt0 :: rest))); [discriminate|].
    step_run Hrun built s4 Hbuilt. apply lift_Ok_inv in Hbuilt as [Hbuilt ->].
    step_run Hrun dm' s5 Hdm'. apply new_model_list_inv in Hdm' as [Hdm' ->].
    step_run Hrun fobj s6 Hfobj. apply new_frame_inv in Hfobj as [Hfobj ->].
    step_run Hrun fr' s7 Hfr'. apply new_frame_list_inv in Hfr' as [Hfr' ->].
    step_run Hrun u s8 Hset. apply set_instance_inv in Hset as ->.
    apply ret_Ok_inv in Hrun as [-> ->].
    cbn [model_lists frame_lists frame_objects instances calls] in *.
    split; [exact Hself|]. split; [|split].
    + repeat split; cbn [model_lists frame_lists frame_objects instances];
        intros r x Hr.
      * eapply insert_fresh_lookup; [exact Hdm'|].
        eapply insert_fresh_lookup; eassumption.
      * eapply insert_fresh_lookup; [exact Hfr'|].
        eapply insert_fresh_lookup; eassumption.
      * eapply insert_fresh_lookup; eassumption.
      * rewrite lookup_insert_ne by congruence.
        eapply insert_fresh_lookup; eassumption.
    + reflexivity.
    + exists (mkCoord dm' fr').
      cbn [model_lists frame_lists frame_objects instances
           delayed_models frames].
      rewrite !lookup_insert_eq. split; [reflexivity|]. right.
      exists lt0, built, fobj. rewrite ?lookup_insert_eq.
      repeat split; try reflexivity. exact Hbuilt.
Qed.

(** X13: What a construction that returned has done: the new instance is at a
    reference not in use before; it holds no table and no frame when no
    table was given, else one table and one frame; no object of the store
    was touched and no construction function invoked. *)
Theorem construction_builds_a_well_formed_instance
    (lookup_tables : list A) (mesh : bool)
    (names physical_types : option (list string))
    (s s' : store A U) (self : ref) :
  LookupTableCoord__init__ quantity_unit lookup_tables mesh names
    physical_types s = (Ok self, s') ->
  instances s !! self = None /\
  well_formed s' self /\
  extends s s' /\
  calls s' = calls s /\
  exists (me : LookupTableCoord) (dms : list (DelayedLookupTable A)),
    instances s' !! self = Some me /\
    model_lists s' !! delayed_models me = Some dms /\
    length dms = Nat.min 1 (length lookup_tables).
Proof.
  intros Hrun.
  destruct (construction_run _ _ _ _ _ _ _ Hrun)
    as (Hfresh & Hext & Hcalls & me & Hme & Hcase).
  split; [exact Hfresh|].
  destruct Hcase as [(-> & Hdm & Hfr)
                    |(lt0 & built & fobj & Hhd & Hbuilt & Hdm & Hfr & Hf)].
  - split; [|split; [exact Hext|split; [exact Hcalls|]]].
    + exists me, [], []. repeat split; try assumption. constructor.
    + exists me, []. repeat split; assumption.
  - assert (Haxes : length (_axes_order built.2) = naxes built.2).
    { destruct (type_of lt0).
      - eapply from_quantity_frame_axes. exact Hbuilt.
      - eapply from_time_frame_axes. exact Hbuilt.
      - eapply from_skycoord_frame_axes. exact Hbuilt.
      - discriminate. }
    split; [|split; [exact Hext|split; [exact Hcalls|]]].
    + exists me, [built.1], [fobj]. repeat split; try assumption.
      constructor; [|constructor]. exists built.2. split; assumption.
    + exists me, [built.1]. repeat split; try assumption.
      destruct lookup_tables; [discriminate | reflexivity].
Qed.

(** X14: A coordinate built from quantity tables has one axis per table. *)
Theorem quantity_coordinate_has_one_axis_per_table
    (lookup_tables : list A) (lt0 : A) (mesh : bool)
    (names physical_types : option (list string))
    (s s' : store A U) (self : ref) :
  head lookup_tables = Some lt0 ->
  type_of lt0 = Quantity ->
  LookupTableCoord__init__ quantity_unit lookup_tables mesh names
    physical_types s = (Ok self, s') ->
  ndim self s' = (Ok (length lookup_tables), s').
Proof.
  intros Hhd Hty Hrun.
  destruct (construction_run _ _ _ _ _ _ _ Hrun)
    as (_ & _ & _ & me & Hme & Hcase).
  destruct Hcase as [(-> & _ & _)
                    |(lt0' & built & fobj & Hhd' & Hbuilt & _ & Hfr & Hf)];
    [discriminate|].
  rewrite Hhd in Hhd'. injection Hhd' as <-. rewrite Hty in Hbuilt.
  apply from_quantity_frame_axes in Hbuilt as [Hlen Hn].
  unfold ndim, deref. rewrite bind_run, Hme. rewrite bind_run, Hfr.
  rewrite bind_run. cbn [mapM]. rewrite bind_run, Hf.
  unfold mbind, M_bind, mret, M_ret. cbv beta iota. cbn [foldl].
  rewrite Hlen, Hn. reflexivity.
Qed.

(** X15: Two or more tables whose first is a [Time] or a [SkyCoord] never
    make a coordinate: the construction raises [TypeError] (mixed types) or
    [ValueError] (shapes that differ, or more than one table). *)
Theorem several_time_or_sky_tables_are_refused
    (lt0 lt1 : A) (rest : list A) (mesh : bool)
    (names physical_types : option (list string)) (s : store A U) :
  type_of lt0 = Time \/ type_of lt0 = SkyCoord ->
  (LookupTableCoord__init__ quantity_unit (lt0 :: lt1 :: rest) mesh names
     physical_types s).1 = Raise TypeError \/
  (LookupTableCoord__init__ quantity_unit (lt0 :: lt1 :: rest) mesh names
     physical_types s).1 = Raise ValueError.
Proof.
  intros Hty. unfold LookupTableCoord__init__.
  repeat (rewrite bind_run;
          cbn [new_model_list new_frame_list new_instance]).
  destruct (negb (forallb _ (lt0 :: lt1 :: rest))); [left; reflexivity|].
  destruct (negb (forallb _ (lt0 :: lt1 :: rest))); [right; reflexivity|].
  right. rewrite bind_run. unfold lift.
  destruct Hty as [-> | ->]; reflexivity.
Qed.

End Construction.

Lemma construction_builds_a_well_formed_instance_witness :
  LookupTableCoord__init__ quantity_unit [pixels5] true None None empty_store
    = (Ok 1%positive, (one_coord empty_store).2) /\
  instances (empty_store (A:=table) (U:=unit_name)) !! 1%positive = None /\
  well_formed (one_coord empty_store).2 1%positive /\
  extends empty_store (one_coord empty_store).2 /\
  calls (one_coord empty_store).2
    = calls (empty_store (A:=table) (U:=unit_name)) /\
  exists (me : LookupTableCoord) (dms : list (DelayedLookupTable table)),
    instances (one_coord empty_store).2 !! 1%positive = Some me /\
    model_lists (one_coord empty_store).2 !! delayed_models me = Some dms /\
    length dms = Nat.min 1 (length [pixels5]).
Proof.
  split; [vm_compute; reflexivity|].
  apply (construction_builds_a_well_formed_instance quantity_unit
           [pixels5] true None None empty_store (one_coord empty_store).2
           1%positive).
  vm_compute. reflexivity.
Defined.

Lemma quantity_coordinate_has_one_axis_per_table_witness :
  head [metres3; metres3] = Some metres3 /\
  type_of metres3 = Quantity /\
  LookupTableCoord__init__ quantity_unit [metres3; metres3] true None None
    empty_store
  = (Ok 1%positive,
     (LookupTableCoord__init__ quantity_unit [metres3; metres3] true None
        None empty_store).2) /\
  ndim 1%positive
    (LookupTableCoord__init__ quantity_unit [metres3; metres3] true None
       None empty_store).2
  = (Ok 2%nat,
     (LookupTableCoord__init__ quantity_unit [metres3; metres3] true None
        None empty_store).2).
Proof.
  split; [reflexivity|]. split; [reflexivity|].
  split; [vm_compute; reflexivity|].
  apply (quantity_coordinate_has_one_axis_per_table quantity_unit
           [metres3; metres3] metres3 true None None empty_store).
  - reflexivity.
  - reflexivity.
  - vm_compute. reflexivity.
Defined.

Lemma several_time_or_sky_tables_are_refused_witness :
  (type_of (mkTable Time second false [1; 2]) = Time \/
   type_of (mkTable Time second false [1; 2]) = SkyCoord) /\
  ((LookupTableCoord__init__ quantity_unit
      [mkTable Time second false [1; 2]; mkTable Time second false [3; 4]]
      true None None empty_store).1 = Raise TypeError \/
   (LookupTableCoord__init__ quantity_unit
      [mkTable Time second false [1; 2]; mkTable Time second false [3; 4]]
      true None None empty_store).1 = Raise ValueError).
Proof.
  split; [left; reflexivity|].
  apply (several_time_or_sky_tables_are_refused quantity_unit
           (mkTable Time second false [1; 2])
           (mkTable Time second false [3; 4]) [] true None None empty_store).
  left. reflexivity.
Defined.

(** ** Sub-selection of a coordinate *)

Section SubSelection.

Context {A U : Type} `{Tables A U}.
Variable quantity_unit : list A -> result U.
Variable sanitize_slices : item -> nat -> result (list elem).

Lemma getitem_elem {X} (l : list X) (i : Z) (x : X) :
  getitem l i = Ok x -> x ∈ l.
Proof.
  intros Hg. apply getitem_inv in Hg as (k & Hk & _).
  eapply list_elem_of_lookup_2. exact Hk.
Qed.

Lemma mapM_getitem_elems {X} (l : list X) (idxs : list nat) (subs : list X) :
  mapM (fun i => getitem l (Z.of_nat i)) idxs = Ok subs ->
  Forall (fun x => x ∈ l) subs.
Proof.
  revert subs. induction idxs as [|i idxs IH]; intros subs Hm.
  - injection Hm as <-. constructor.
  - cbn [mapM] in Hm.
    destruct (getitem l (Z.of_nat i)) as [x|e] eqn:Hx; [|discriminate].
    cbn [mbind result_bind] in Hm.
    destruct (mapM _ idxs) as [rest|e]; [|discriminate].
    injection Hm as <-. constructor.
    + eapply getitem_elem. exact Hx.
    + apply IH. reflexivity.
Qed.

(** The loop of sub-selection changes nothing but the log of calls; it
    appends as many delayed tables as frames, the frames being frames of
    the pairs it went through, and appends nothing when every element of
    the item is an integer. *)
Lemma select_run (pairs : list (DelayedLookupTable A * ref)) :
  forall (ind : nat) (it : list elem)
         (new_dmodels : list (DelayedLookupTable A))
         (new_frames : list ref) (s s' : store A U)
         (r : list (DelayedLookupTable A) * list ref),
  select ind pairs it new_dmodels new_frames s = (Ok r, s') ->
  model_lists s' = model_lists s /\
  frame_lists s' = frame_lists s /\
  frame_objects s' = frame_objects s /\
  instances s' = instances s /\
  exists (ds : list (DelayedLookupTable A)) (fs : list ref),
    r = (new_dmodels ++ ds, new_frames ++ fs) /\
    length ds = length fs /\
    Forall (fun f => f ∈ pairs.*2) fs /\
    (forallb is_integral it = true -> ds = [] /\ fs = []).
Proof.
  induction pairs as [|[d f] pairs IH]; intros ind it nd nf s s' r Hrun.
  - cbn in Hrun. injection Hrun as <- <-. repeat split.
    exists [], []. rewrite !app_nil_r. repeat split. constructor.
  - cbn [select] in Hrun.
    step_run Hrun m s1 Hcall. apply call_Ok_inv in Hcall as ->.
    step_run Hrun subs s2 Hsubs. apply lift_Ok_inv in Hsubs as [Hsubs ->].
    apply mapM_getitem_elems in Hsubs.
    destruct (negb (forallb is_integral subs)) eqn:Hint.
    + step_run Hrun sl s3 Hsl. apply lift_Ok_inv in Hsl as [Hsl ->].
      destruct (IH _ _ _ _ _ _ _ Hrun)
        as (Hm & Hl & Hf & Hi & ds & fs & -> & Hlen & Hin & Hnone).
      cbn [model_lists frame_lists frame_objects instances] in *.
      repeat (split; [assumption|]).
      exists (sl :: ds), (f :: fs). rewrite <- !app_assoc. cbn [app].
      split; [reflexivity|]. split; [cbn; lia|]. split.
      * constructor; [cbn; apply elem_of_cons; left; reflexivity|].
        eapply Forall_impl; [exact Hin|]. cbn. intros g Hg.
        apply elem_of_cons. right. exact Hg.
      * intros Hall. exfalso.
        apply negb_true_iff in Hint.
        assert (Hsub : forallb is_integral subs = true); [|congruence].
        apply forallb_forall. intros e He.
        rewrite forallb_forall in Hall. apply Hall.
        rewrite Forall_forall in Hsubs. apply list_elem_of_In.
        apply Hsubs. apply list_elem_of_In. exact He.
    + destruct (IH _ _ _ _ _ _ _ Hrun)
        as (Hm & Hl & Hf & Hi & ds & fs & -> & Hlen & Hin & Hnone).
      cbn [model_lists frame_lists frame_objects instances] in *.
      repeat (split; [assumption|]).
      exists ds, fs. split; [reflexivity|]. split; [exact Hlen|]. split.
      * eapply Forall_impl; [exact Hin|]. cbn. intros g Hg.
        apply elem_of_cons. right. exact Hg.
      * exact Hnone.
Qed.

(** What a sub-selection that returned went through. *)
Lemma sub_selection_run (self : ref) (it : item) (r : option ref)
    (s s' : store A U) :
  LookupTableCoord__getitem__ quantity_unit sanitize_slices self it s
    = (Ok r, s') ->
  exists (nd : nat) (its : list elem) (me : LookupTableCoord)
         (dms : list (DelayedLookupTable A)) (fs : list ref)
         (sel : list (DelayedLookupTable A) * list ref) (s1 : store A U),
    ndim self s = (Ok nd, s) /\
    sanitize_slices it nd = Ok its /\
    instances s !! self = Some me /\
    model_lists s !! delayed_models me = Some dms /\
    frame_lists s !! frames me = Some fs /\
    select 0 (zip dms fs) its [] [] s = (Ok sel, s1) /\
    match sel.1 with
    | [] => r = None /\ s' = s1
    | _ :: _ =>
        exists (new_lutc dm fr : ref) (s2 : store A U),
          LookupTableCoord__init__ quantity_unit [] true None None s1
            = (Ok new_lutc, s2) /\
          model_lists s2 !! dm = None /\
          frame_lists s2 !! fr = None /\
          r = Some new_lutc /\
          s' = mkStore (<[dm := sel.1]> (model_lists s2))
                 (<[fr := sel.2]> (frame_lists s2)) (frame_objects s2)
                 (<[new_lutc := mkCoord dm fr]> (instances s2)) (calls s2)
    end.
Proof.
  intros Hrun. unfold LookupTableCoord__getitem__ in Hrun.
  apply read_only_bind_Ok_inv in Hrun as (nd & Hnd & Hrun);
    [|apply read_only_ndim].
  apply read_only_bind_Ok_inv in Hrun as (its & Hits & Hrun);
    [|apply read_only_lift].
  apply lift_Ok_inv in Hits as [Hits _].
  apply read_only_bind_Ok_inv in Hrun as (me & Hme & Hrun);
    [|apply read_only_deref].
  apply read_only_bind_Ok_inv in Hrun as (dms & Hdms & Hrun);
    [|apply read_only_deref].
  apply read_only_bind_Ok_inv in Hrun as (fs & Hfs & Hrun);
    [|apply read_only_deref].
  apply deref_Ok_inv in Hme as [Hme _].
  apply deref_Ok_inv in Hdms as [Hdms _].
  apply deref_Ok_inv in Hfs as [Hfs _].
  step_run Hrun sel s1 Hsel.
  exists nd, its, me, dms, fs, sel, s1.
  repeat (split; [assumption|]).
  destruct sel.1 as [|d ds] eqn:Hsel1.
  - apply ret_Ok_inv in Hrun as [-> ->]. split; reflexivity.
  - step_run Hrun new_lutc s2 Hinit.
    step_run Hrun dm s3 Hdm. apply new_model_list_inv in Hdm as [Hdm ->].
    step_run Hrun fr s4 Hfr. apply new_frame_list_inv in Hfr as [Hfr ->].
    step_run Hrun u s5 Hset. apply set_instance_inv in Hset as ->.
    apply ret_Ok_inv in Hrun as [-> ->].
    cbn [model_lists frame_lists frame_objects instances calls] in *.
    exists new_lutc, dm, fr, s2. repeat split; assumption.
Qed.

(** X16: Slicing every axis with an integer gives no coordinate: the result
    is [None], and the store differs only by the log of calls. *)
Theorem all_integer_item_gives_no_coordinate
    (self : ref) (it : item) (nd : nat) (its : list elem) (r : option ref)
    (s s' : store A U) :
  ndim self s = (Ok nd, s) ->
  sanitize_slices it nd = Ok its ->
  forallb is_integral its = true ->
  LookupTableCoord__getitem__ quantity_unit sanitize_slices self it s
    = (Ok r, s') ->
  r = None /\
  model_lists s' = model_lists s /\
  frame_lists s' = frame_lists s /\
  frame_objects s' = frame_objects s /\
  instances s' = instances s.
Proof.
  intros Hnd Hits Hint Hrun.
  destruct (sub_selection_run _ _ _ _ _ Hrun)
    as (nd' & its' & me & dms & fs & sel & s1 & Hnd' & Hits' & _ & _ & _
        & Hsel & Hcase).
  rewrite Hnd in Hnd'. injection Hnd' as <-.
  rewrite Hits in Hits'. injection Hits' as <-.
  destruct (select_run _ _ _ _ _ _ _ _ Hsel)
    as (Hm & Hl & Hf & Hi & ds & fs' & -> & _ & _ & Hnone).
  destruct (Hnone Hint) as [-> ->]. cbn in Hcase.
  destruct Hcase as [-> ->]. repeat split; assumption.
Qed.

Lemma zip_snd_elem {X Y} (l : list X) (k : list Y) (y : Y) :
  y ∈ (zip l k).*2 -> y ∈ k.
Proof.
  revert k. induction l as [|x l IH]; intros [|z k] Hy; cbn in Hy;
    try (apply elem_of_nil in Hy; contradiction).
  apply elem_of_cons in Hy as [->|Hy].
  - apply elem_of_cons. left. reflexivity.
  - apply elem_of_cons. right. apply IH. exact Hy.
Qed.

(** X17: A sub-selection that returns a coordinate returns a new, well-formed
    instance whose frames are frames of the operand, shared and not
    copied; no object of the store is touched, the operand included. *)
Theorem sub_selection_builds_a_new_instance
    (self new_lutc : ref) (it : item) (s s' : store A U) :
  well_formed s self ->
  LookupTableCoord__getitem__ quantity_unit sanitize_slices self it s
    = (Ok (Some new_lutc), s') ->
  instances s !! new_lutc = None /\
  well_formed s' new_lutc /\
  extends s s' /\
  exists (me n : LookupTableCoord) (fs fs' : list ref),
    instances s !! self = Some me /\
    frame_lists s !! frames me = Some fs /\
    instances s' !! new_lutc = Some n /\
    frame_lists s' !! frames n = Some fs' /\
    Forall (fun f => f ∈ fs) fs'.
Proof.
  intros (me0 & dms0 & fs0 & Hme0 & Hdms0 & Hfs0 & _ & Hframes) Hrun.
  destruct (sub_selection_run _ _ _ _ _ Hrun)
    as (nd & its & me & dms & fs & sel & s1 & _ & _ & Hme & Hdms & Hfs
        & Hsel & Hcase).
  rewrite Hme in Hme0. injection Hme0 as <-.
  rewrite Hfs in Hfs0. injection Hfs0 as <-.
  destruct (select_run _ _ _ _ _ _ _ _ Hsel)
    as (Hm & Hl & Hf & Hi & ds & fs' & -> & Hlen & Hin & _).
  cbn [fst snd app] in Hcase.
  destruct ds as [|d ds]; [destruct Hcase as [[=] _]|].
  destruct Hcase as (new & dm & fr & s2 & Hinit & Hdm & Hfr & [= <-] & ->).
  destruct (construction_run _ _ _ _ _ _ _ _ Hinit)
    as (Hfresh & (Em & El & Ef & Ei) & _ & _).
  rewrite Hm in Em. rewrite Hl in El. rewrite Hf in Ef. rewrite Hi in *.
  assert (Hsub : Forall (fun f => f ∈ fs) fs').
  { eapply Forall_impl; [exact Hin|]. cbn. intros g Hg.
    eapply zip_snd_elem. exact Hg. }
  split; [exact Hfresh|]. split; [|split].
  - exists (mkCoord dm fr), (d :: ds), fs'.
    cbn [model_lists frame_lists frame_objects instances
         delayed_models frames].
    rewrite !lookup_insert_eq. repeat split; [exact Hlen|].
    rewrite Forall_forall in Hsub, Hframes. apply Forall_forall.
    intros g Hg. destruct (Hframes g (Hsub g Hg)) as (frm & Hfrm & Hax).
    exists frm. split; [apply Ef; exact Hfrm | exact Hax].
  - repeat split; cbn [model_lists frame_lists frame_objects instances];
      intros r x Hr.
    + eapply insert_fresh_lookup; [exact Hdm|]. apply Em. exact Hr.
    + eapply insert_fresh_lookup; [exact Hfr|]. apply El. exact Hr.
    + apply Ef. exact Hr.
    + rewrite lookup_insert_ne by congruence. apply Ei. exact Hr.
  - exists me, (mkCoord dm fr), fs, fs'.
    cbn [frame_lists instances frames]. rewrite !lookup_insert_eq.
    repeat split; assumption.
Qed.

End SubSelection.

Lemma all_integer_item_gives_no_coordinate_witness :
  ndim 1%positive (one_coord empty_store).2
    = (Ok 1%nat, (one_coord empty_store).2) /\
  sanitize_slices (Elem (EInt 2)) 1 = Ok [EInt 2] /\
  forallb is_integral [EInt 2] = true /\
  exists s' : store table unit_name,
    LookupTableCoord__getitem__ quantity_unit sanitize_slices 1%positive
      (Elem (EInt 2)) (one_coord empty_store).2 = (Ok None, s') /\
    None = @None ref /\
    model_lists s' = model_lists (one_coord empty_store).2 /\
    frame_lists s' = frame_lists (one_coord empty_store).2 /\
    frame_objects s' = frame_objects (one_coord empty_store).2 /\
    instances s' = instances (one_coord empty_store).2.
Proof.
  split; [vm_compute; reflexivity|]. split; [reflexivity|].
  split; [reflexivity|].
  eexists. split; [vm_compute; reflexivity|].
  apply (all_integer_item_gives_no_coordinate quantity_unit sanitize_slices
           1%positive (Elem (EInt 2)) 1 [EInt 2] None
           (one_coord empty_store).2).
  - vm_compute. reflexivity.
  - reflexivity.
  - reflexivity.
  - vm_compute. reflexivity.
Defined.

Lemma one_coord_well_formed : well_formed (one_coord empty_store).2 1%positive.
Proof.
  exists (mkCoord 2%positive 2%positive),
    [mkDelayed (Components [pixels5]) (ModelFromQuantity true) true],
    [1%positive].
  repeat split; try (vm_compute; reflexivity).
  constructor; [|constructor].
  eexists. split; vm_compute; reflexivity.
Defined.

Lemma sub_selection_builds_a_new_instance_witness :
  well_formed (one_coord empty_store).2 1%positive /\
  exists s' : store table unit_name,
    LookupTableCoord__getitem__ quantity_unit sanitize_slices 1%positive
      (Elem (ESlice (mkSlice (Some 1) (Some 4) None)))
      (one_coord empty_store).2 = (Ok (Some 2%positive), s') /\
    instances (one_coord empty_store).2 !! 2%positive = None /\
    well_formed s' 2%positive /\
    extends (one_coord empty_store).2 s' /\
    exists (me n : LookupTableCoord) (fs fs' : list ref),
      instances (one_coord empty_store).2 !! 1%positive = Some me /\
      frame_lists (one_coord empty_store).2 !! frames me = Some fs /\
      instances s' !! 2%positive = Some n /\
      frame_lists s' !! frames n = Some fs' /\
      Forall (fun f => f ∈ fs) fs'.
Proof.
  split; [exact one_coord_well_formed|].
  eexists. split; [vm_compute; reflexivity|].
  apply (sub_selection_builds_a_new_instance quantity_unit sanitize_slices
           1%positive 2%positive
           (Elem (ESlice (mkSlice (Some 1) (Some 4) None)))
           (one_coord empty_store).2).
  - exact one_coord_well_formed.
  - vm_compute. reflexivity.
Defined.

(** ** Realizing the model *)

Section Realization.

Context {A U : Type} `{Tables A U}.

Lemma join_models_run (rest : list (DelayedLookupTable A)) :
  forall (m m' : Model A) (s s' : store A U),
  join_models m rest s = (Ok m', s') ->
  s' = mkStore (model_lists s) (frame_lists s) (frame_objects s)
         (instances s) (calls s ++ map call_of rest).
Proof.
  induction rest as [|d rest IH]; intros m m' s s' Hrun.
  - cbn in Hrun. injection Hrun as _ <-. cbn. rewrite app_nil_r.
    destruct s; reflexivity.
  - cbn [join_models] in Hrun.
    step_run Hrun realized s1 Hcall. apply call_Ok_inv in Hcall as ->.
    apply IH in Hrun as ->. cbn. rewrite <- app_assoc. reflexivity.
Qed.

(** What a request for the model that returned went through. *)
Lemma model_run (self : ref) (m : Model A) (s s' : store A U) :
  model self s = (Ok m, s') ->
  exists (me : LookupTableCoord) (dms : list (DelayedLookupTable A)),
    instances s !! self = Some me /\
    model_lists s !! delayed_models me = Some dms /\
    dms <> [] /\
    s' = mkStore (model_lists s) (frame_lists s) (frame_objects s)
           (instances s) (calls s ++ map call_of dms).
Proof.
  intros Hrun. unfold model in Hrun.
  apply read_only_bind_Ok_inv in Hrun as (me & Hme & Hrun);
    [|apply read_only_deref].
  apply read_only_bind_Ok_inv in Hrun as (dms & Hdms & Hrun);
    [|apply read_only_deref].
  apply read_only_bind_Ok_inv in Hrun as (first & Hfirst & Hrun);
    [|apply read_only_lift].
  apply deref_Ok_inv in Hme as [Hme _].
  apply deref_Ok_inv in Hdms as [Hdms _].
  apply lift_Ok_inv in Hfirst as [Hfirst _].
  exists me, dms. split; [exact Hme|]. split; [exact Hdms|].
  destruct dms as [|d dms]; [discriminate|]. split; [discriminate|].
  assert (first = d) as ->.
  { apply getitem_inv in Hfirst as (k & Hk & Hk0). cbn in Hk0.
    assert (k = 0%nat) as -> by lia. cbn in Hk. congruence. }
  step_run Hrun m0 s1 Hcall. apply call_Ok_inv in Hcall as ->.
  apply join_models_run in Hrun as ->. cbn. rewrite <- app_assoc.
  reflexivity.
Qed.

(** X18: Requesting the model realizes every held table exactly once, in list
    order, and changes nothing else; a coordinate without tables has no
    model. *)
Theorem model_realizes_each_table_once
    (self : ref) (m : Model A) (s s' : store A U) :
  model self s = (Ok m, s') ->
  exists (me : LookupTableCoord) (dms : list (DelayedLookupTable A)),
    instances s !! self = Some me /\
    model_lists s !! delayed_models me = Some dms /\
    dms <> [] /\
    calls s' = calls s ++ map call_of dms /\
    model_lists s' = model_lists s /\
    frame_lists s' = frame_lists s /\
    frame_objects s' = frame_objects s /\
    instances s' = instances s.
Proof.
  intros Hrun.
  destruct (model_run _ _ _ _ Hrun) as (me & dms & Hme & Hdms & Hne & ->).
  exists me, dms. repeat split; assumption.
Qed.

(** X19: Requesting the full coordinate system realizes every held table
    twice: the model is built once as the transform and once more to count
    its inputs. *)
Theorem wcs_realizes_each_table_twice
    (self : ref) (w : WCS) (s s' : store A U) :
  wcs self s = (Ok w, s') ->
  exists (me : LookupTableCoord) (dms : list (DelayedLookupTable A)),
    instances s !! self = Some me /\
    model_lists s !! delayed_models me = Some dms /\
    calls s' = calls s ++ map call_of dms ++ map call_of dms.
Proof.
  intros Hrun. unfold wcs in Hrun.
  step_run Hrun forward s1 Hfirst.
  step_run Hrun again s2 Hsecond.
  apply read_only_bind_Ok_inv in Hrun as (output & _ & Hrun);
    [|apply read_only_frame].
  apply ret_Ok_inv in Hrun as [_ ->].
  destruct (model_run _ _ _ _ Hfirst) as (me & dms & Hme & Hdms & _ & ->).
  destruct (model_run _ _ _ _ Hsecond)
    as (me' & dms' & Hme' & Hdms' & _ & ->).
  cbn [instances model_lists calls] in *.
  rewrite Hme in Hme'. injection Hme' as <-.
  rewrite Hdms in Hdms'. injection Hdms' as <-.
  exists me, dms. repeat split; try assumption.
  rewrite <- app_assoc. reflexivity.
Qed.

End Realization.

Lemma model_realizes_each_table_once_witness :
  exists (m : Model table) (s' : store table unit_name),
    model 1%positive (one_coord empty_store).2 = (Ok m, s') /\
    exists (me : LookupTableCoord) (dms : list (DelayedLookupTable table)),
      instances (one_coord empty_store).2 !! 1%positive = Some me /\
      model_lists (one_coord empty_store).2 !! delayed_models me = Some dms /\
      dms <> [] /\
      calls s' = calls (one_coord empty_store).2 ++ map call_of dms /\
      model_lists s' = model_lists (one_coord empty_store).2 /\
      frame_lists s' = frame_lists (one_coord empty_store).2 /\
      frame_objects s' = frame_objects (one_coord empty_store).2 /\
      instances s' = instances (one_coord empty_store).2.
Proof.
  eexists. eexists. split; [vm_compute; reflexivity|].
  eapply (model_realizes_each_table_once 1%positive _
            (one_coord empty_store).2).
  vm_compute. reflexivity.
Defined.

Lemma wcs_realizes_each_table_twice_witness :
  exists (w : WCS) (s' : store table unit_name),
    wcs 1%positive (one_coord empty_store).2 = (Ok w, s') /\
    exists (me : LookupTableCoord) (dms : list (DelayedLookupTable table)),
      instances (one_coord empty_store).2 !! 1%positive = Some me /\
      model_lists (one_coord empty_store).2 !! delayed_models me = Some dms /\
      calls s' = calls (one_coord empty_store).2
                 ++ map call_of dms ++ map call_of dms.
Proof.
  eexists. eexists. split; [vm_compute; reflexivity|].
  eapply (wcs_realizes_each_table_twice 1%positive _
            (one_coord empty_store).2).
  vm_compute. reflexivity.
Defined.

(** ** The axes of a composite *)

Section CompositeAxes.

Context {A U : Type}.

Lemma axis_range_app (a b c : nat) :
  (a <= b)%nat -> (b <= c)%nat ->
  axis_range a b ++ axis_range b c = axis_range a c.
Proof.
  intros Hab Hbc. unfold axis_range. rewrite <- map_app. f_equal.
  replace (c - a)%nat with ((b - a) + (c - b))%nat by lia.
  rewrite seq_app. do 2 f_equal. lia.
Qed.

(** After the re-indexing loop the axes orders of the listed frames,
    read in list order, count up from the start index without gap. *)
Lemma reindex_frames_contiguous (fs : list ref) :
  forall (ind : nat) (s : store A U),
  NoDup fs ->
  frames_live (frame_objects s) fs ->
  exists (s' : store A U) (frs : list (Frame U)),
    reindex_frames ind fs s = (Ok (), s') /\
    model_lists s' = model_lists s /\
    frame_lists s' = frame_lists s /\
    instances s' = instances s /\
    calls s' = calls s /\
    (forall f : ref,
       f ∉ fs -> frame_objects s' !! f = frame_objects s !! f) /\
    Forall2 (fun f fr => frame_objects s' !! f = Some fr) fs frs /\
    Forall (fun fr => length (_axes_order fr) = naxes fr) frs /\
    concat (map _axes_order frs)
    = axis_range ind (ind + total_axes (frame_objects s) fs).
Proof.
  induction fs as [|f fs IH]; intros ind s Hnodup Hlive.
  - exists s, []. cbn [reindex_frames]. repeat split; try constructor.
    cbn. unfold axis_range. replace (ind + 0 - ind)%nat with 0%nat by lia.
    reflexivity.
  - apply NoDup_cons in Hnodup as [Hnotin Hnodup].
    apply Forall_cons in Hlive as [[fr Hfr] Hlive].
    set (fr' := set_axes_order fr (axis_range ind (ind + naxes fr))).
    set (s1 := mkStore (model_lists s) (frame_lists s)
                 (<[f := fr']> (frame_objects s)) (instances s) (calls s)).
    destruct (IH (ind + naxes fr)%nat s1 Hnodup)
      as (s' & frs & Hrun & Hm & Hl & Hi & Hc & Hout & Hall & Hlen & Hcat).
    { eapply Forall_impl; [exact Hlive|]. intros g Hg. cbn.
      destruct (decide (f = g)) as [<-|Hne].
      - rewrite lookup_insert_eq. eauto.
      - rewrite lookup_insert_ne by exact Hne. exact Hg. }
    exists s', (fr' :: frs). split; [|repeat split].
    + cbn [reindex_frames]. rewrite bind_run. unfold deref. rewrite Hfr.
      rewrite bind_run. cbn [set_frame]. exact Hrun.
    + exact Hm.
    + exact Hl.
    + exact Hi.
    + exact Hc.
    + intros g Hg. apply not_elem_of_cons in Hg as [Hgf Hg].
      rewrite (Hout g Hg). cbn. rewrite lookup_insert_ne by congruence.
      reflexivity.
    + constructor; [|exact Hall].
      rewrite (Hout f Hnotin). cbn. apply lookup_insert_eq.
    + constructor; [|exact Hlen].
      subst fr'. cbn [_axes_order naxes set_axes_order].
      rewrite length_axis_range. lia.
    + cbn [map concat]. rewrite Hcat. subst fr' s1.
      cbn [_axes_order set_axes_order frame_objects].
      rewrite (total_axes_insert _ _ _ _ _ Hfr).
      cbn [total_axes foldr]. rewrite Hfr. cbn [from_option].
      fold (total_axes (frame_objects s) fs).
      rewrite axis_range_app by lia. f_equal. lia.
Qed.

Lemma mapM_deref_frames (fs : list ref) (frs : list (Frame U))
    (s : store A U) :
  Forall2 (fun f fr => frame_objects s !! f = Some fr) fs frs ->
  mapM (deref frame_objects) fs s = (Ok frs, s).
Proof.
  induction 1 as [|f fr fs frs Hf Hall IH]; [reflexivity|].
  cbn [mapM]. rewrite bind_run. unfold deref at 1. rewrite Hf.
  rewrite bind_run, IH. reflexivity.
Qed.

Lemma foldl_axes_length (frs : list (Frame U)) (k : nat) :
  foldl (fun n fr => (n + length (_axes_order fr))%nat) k frs
  = (k + length (concat (map _axes_order frs)))%nat.
Proof.
  revert k. induction frs as [|fr frs IH]; intros k; cbn [foldl map concat].
  - cbn. lia.
  - rewrite IH, length_app. lia.
Qed.

Lemma frames_with_axes (objects : gmap ref (Frame U)) (fs : list ref)
    (frs : list (Frame U)) :
  Forall2 (fun f fr => objects !! f = Some fr) fs frs ->
  Forall (fun fr => length (_axes_order fr) = naxes fr) frs ->
  Forall (fun f => exists fr : Frame U,
                     objects !! f = Some fr /\
                     length (_axes_order fr) = naxes fr) fs.
Proof.
  induction 1 as [|f fr fs frs Hf Hall IH]; intros Hlen; [constructor|].
  apply Forall_cons in Hlen as [Hlen0 Hlen].
  constructor; [exists fr; split; assumption|].
  apply IH. exact Hlen.
Qed.

(** How composition runs when the operands hold distinct lists. *)
Lemma composition_run (s : store A U) (self other : ref)
    (a b : LookupTableCoord) (dmA dmB : list (DelayedLookupTable A))
    (frA frB : list ref) :
  instances s !! self = Some a ->
  instances s !! other = Some b ->
  model_lists s !! delayed_models a = Some dmA ->
  model_lists s !! delayed_models b = Some dmB ->
  frame_lists s !! frames a = Some frA ->
  frame_lists s !! frames b = Some frB ->
  delayed_models b <> delayed_models a ->
  frames b <> frames a ->
  instances s !! fresh (dom (instances s)) = None /\
  LookupTableCoord__and__ self (Instance other) s
  = match reindex_frames 0 (frA ++ frB)
            (mkStore (<[delayed_models a := dmA ++ dmB]> (model_lists s))
               (<[frames a := frA ++ frB]> (frame_lists s))
               (frame_objects s)
               (<[fresh (dom (instances s)) := a]> (instances s))
               (calls s)) with
    | (Ok _, s') => (Ok (fresh (dom (instances s))), s')
    | (Raise e, s') => (Raise e, s')
    end.
Proof.
  intros Hself Hother HdmA HdmB HfrA HfrB Hdm Hfr.
  set (new_lutc := fresh (dom (instances s))).
  assert (Hfresh : instances s !! new_lutc = None).
  { apply not_elem_of_dom. apply is_fresh. }
  assert (Hne : new_lutc <> other) by congruence.
  split; [exact Hfresh|].
  unfold LookupTableCoord__and__, deref.
  rewrite bind_run, Hself.
  rewrite bind_run. cbn [new_instance]. fold new_lutc.
  repeat (rewrite bind_run; cbv beta;
          cbn [instances model_lists frame_lists frame_objects calls
               set_model_list set_frame_list];
          rewrite ?lookup_insert_eq, ?(lookup_insert_ne _ _ _ _ Hne),
            ?Hother, ?HdmA, ?HdmB, ?HfrA, ?HfrB).
  destruct (reindex_frames 0 (frA ++ frB) _) as [[[]|e] s']; reflexivity.
Qed.

(** X20: After [A & B], reading the axes orders of the composite's frames in
    list order gives [0, 1, ..., ndim - 1], and [ndim] of the composite is
    the number of axes of all its frames. *)
Theorem composite_axes_are_contiguous
    (s : store A U) (self other : ref) (a b : LookupTableCoord)
    (dmA dmB : list (DelayedLookupTable A)) (frA frB : list ref) :
  instances s !! self = Some a ->
  instances s !! other = Some b ->
  model_lists s !! delayed_models a = Some dmA ->
  model_lists s !! delayed_models b = Some dmB ->
  frame_lists s !! frames a = Some frA ->
  frame_lists s !! frames b = Some frB ->
  delayed_models b <> delayed_models a ->
  frames b <> frames a ->
  NoDup (frA ++ frB) ->
  frames_live (frame_objects s) (frA ++ frB) ->
  exists (new_lutc : ref) (s' : store A U) (frs : list (Frame U)),
    LookupTableCoord__and__ self (Instance other) s = (Ok new_lutc, s') /\
    Forall2 (fun f fr => frame_objects s' !! f = Some fr) (frA ++ frB) frs /\
    concat (map _axes_order frs)
    = axis_range 0 (total_axes (frame_objects s) (frA ++ frB)) /\
    ndim new_lutc s'
    = (Ok (total_axes (frame_objects s) (frA ++ frB)), s').
Proof.
  intros Hself Hother HdmA HdmB HfrA HfrB Hdm Hfr Hnodup Hlive.
  destruct (composition_run s self other a b dmA dmB frA frB)
    as [Hfresh Hand]; try assumption.
  set (new_lutc := fresh (dom (instances s))) in *.
  set (s3 := mkStore _ _ _ _ _) in Hand.
  destruct (reindex_frames_contiguous (frA ++ frB) 0 s3 Hnodup Hlive)
    as (s' & frs & Hrun & Hm & Hl & Hi & Hc & _ & Hall & Hlen & Hcat).
  rewrite Hrun in Hand.
  exists new_lutc, s', frs. split; [exact Hand|]. split; [exact Hall|].
  split; [exact Hcat|].
  unfold ndim. rewrite bind_run. unfold deref at 1. rewrite Hi.
  cbn [instances s3]. rewrite lookup_insert_eq.
  rewrite bind_run. unfold deref at 1. rewrite Hl.
  cbn [frame_lists s3]. rewrite lookup_insert_eq. rewrite bind_run.
  rewrite (mapM_deref_frames _ _ _ Hall).
  unfold mret, M_ret. rewrite foldl_axes_length, Hcat, length_axis_range.
  do 2 f_equal. cbn [frame_objects s3]. lia.
Qed.

(** X21: Composition keeps instances well formed: the composite, the right
    operand, and the left operand too, whose lists have grown with it. *)
Theorem composition_keeps_instances_well_formed
    (s : store A U) (self other : ref) (a b : LookupTableCoord)
    (dmA dmB : list (DelayedLookupTable A)) (frA frB : list ref) :
  instances s !! self = Some a ->
  instances s !! other = Some b ->
  model_lists s !! delayed_models a = Some dmA ->
  model_lists s !! delayed_models b = Some dmB ->
  frame_lists s !! frames a = Some frA ->
  frame_lists s !! frames b = Some frB ->
  length dmA = length frA ->
  length dmB = length frB ->
  delayed_models b <> delayed_models a ->
  frames b <> frames a ->
  NoDup (frA ++ frB) ->
  frames_live (frame_objects s) (frA ++ frB) ->
  exists (new_lutc : ref) (s' : store A U),
    LookupTableCoord__and__ self (Instance other) s = (Ok new_lutc, s') /\
    well_formed s' new_lutc /\
    well_formed s' other /\
    well_formed s' self.
Proof.
  intros Hself Hother HdmA HdmB HfrA HfrB HlenA HlenB Hdm Hfr Hnodup Hlive.
  destruct (composition_run s self other a b dmA dmB frA frB)
    as [Hfresh Hand]; try assumption.
  set (new_lutc := fresh (dom (instances s))) in *.
  set (s3 := mkStore _ _ _ _ _) in Hand.
  destruct (reindex_frames_contiguous (frA ++ frB) 0 s3 Hnodup Hlive)
    as (s' & frs & Hrun & Hm & Hl & Hi & Hc & _ & Hall & Hlen & Hcat).
  rewrite Hrun in Hand.
  assert (Hframes : Forall (fun f => exists fr : Frame U,
                              frame_objects s' !! f = Some fr /\
                              length (_axes_order fr) = naxes fr)
                      (frA ++ frB)).
  { eapply frames_with_axes; eassumption. }
  assert (Hne1 : new_lutc <> other) by congruence.
  assert (Hne2 : new_lutc <> self) by congruence.
  exists new_lutc, s'. split; [exact Hand|]. split; [|split].
  - exists a, (dmA ++ dmB), (frA ++ frB). rewrite Hm, Hl, Hi.
    cbn [model_lists frame_lists instances s3]. rewrite !lookup_insert_eq.
    repeat split; [rewrite !length_app; lia | exact Hframes].
  - exists b, dmB, frB. rewrite Hm, Hl, Hi.
    cbn [model_lists frame_lists instances s3].
    rewrite (lookup_insert_ne _ _ _ _ Hne1).
    rewrite !lookup_insert_ne by congruence.
    repeat split; try assumption.
    apply Forall_app in Hframes as [_ Hframes]. exact Hframes.
  - exists a, (dmA ++ dmB), (frA ++ frB). rewrite Hm, Hl, Hi.
    cbn [model_lists frame_lists instances s3].
    rewrite (lookup_insert_ne _ _ _ _ Hne2), !lookup_insert_eq.
    repeat split; [assumption | rewrite !length_app; lia | exact Hframes].
Qed.

End CompositeAxes.

Lemma composite_axes_are_contiguous_witness :
  exists (new_lutc : ref) (s' : store table unit_name)
         (frs : list (Frame unit_name)),
    LookupTableCoord__and__ 1%positive (Instance 2%positive) two_store
      = (Ok new_lutc, s') /\
    Forall2 (fun f fr => frame_objects s' !! f = Some fr)
      ([1%positive] ++ [2%positive]) frs /\
    concat (map _axes_order frs)
    = axis_range 0 (total_axes (frame_objects two_store)
                      ([1%positive] ++ [2%positive])) /\
    ndim new_lutc s'
    = (Ok (total_axes (frame_objects two_store)
             ([1%positive] ++ [2%positive])), s').
Proof.
  apply (composite_axes_are_contiguous two_store
           1%positive 2%positive (mkCoord 2%positive 2%positive)
           (mkCoord 4%positive 4%positive)
           [mkDelayed (Components [pixels5]) (ModelFromQuantity true) true]
           [mkDelayed (Components [metres3]) (ModelFromQuantity true) true]
           [1%positive] [2%positive]).
  - vm_compute. reflexivity.
  - vm_compute. reflexivity.
  - vm_compute. reflexivity.
  - vm_compute. reflexivity.
  - vm_compute. reflexivity.
  - vm_compute. reflexivity.
  - discriminate.
  - discriminate.
  - apply (bool_decide_unpack (NoDup ([1%positive] ++ [2%positive]))).
    vm_compute. exact I.
  - repeat constructor; eexists; vm_compute; reflexivity.
Defined.

Lemma composition_keeps_instances_well_formed_witness :
  exists (new_lutc : ref) (s' : store table unit_name),
    LookupTableCoord__and__ 1%positive (Instance 2%positive) two_store
      = (Ok new_lutc, s') /\
    well_formed s' new_lutc /\
    well_formed s' 2%positive /\
    well_formed s' 1%positive.
Proof.
  apply (composition_keeps_instances_well_formed two_store
           1%positive 2%positive (mkCoord 2%positive 2%positive)
           (mkCoord 4%positive 4%positive)
           [mkDelayed (Components [pixels5]) (ModelFromQuantity true) true]
           [mkDelayed (Components [metres3]) (ModelFromQuantity true) true]
           [1%positive] [2%positive]).
  - vm_compute. reflexivity.
  - vm_compute. reflexivity.
  - vm_compute. reflexivity.
  - vm_compute. reflexivity.
  - vm_compute. reflexivity.
  - vm_compute. reflexivity.
  - reflexivity.
  - reflexivity.
  - discriminate.
  - discriminate.
  - apply (bool_decide_unpack (NoDup ([1%positive] ++ [2%positive]))).
    vm_compute. exact I.
  - repeat constructor; eexists; vm_compute; reflexivity.
Defined.
